(** * Recipe client: local persistence and remote fallback layer

    A shallow embedding of the storage utilities ([saveDraft], [loadDraft],
    [loadFavorites], [addToFavorites], [removeFromFavorites], ...), of the
    favourite toggle hook, of [ReviewService] and of
    [RecipeService], followed by the properties that the
    specification states about them.

    The browser is an explicit [state] ([localStorage] and the number of
    clock readings, random draws and requests made so far) and a [Platform]
    of oracles (system clock, [Math.random], the HTTP transport). A
    JavaScript function is a computation in the monad [M], which threads the
    state and carries a thrown exception; [try]/[catch] is [try_catch]. *)

From stdpp Require Import gmap strings list fin_maps pretty.
From Stdlib Require Import ZArith Ascii.

#[local] Set Warnings "-register-all".
#[local] Open Scope Z_scope.

(** ** JavaScript values *)

Module JS.

(** The values that travel through the layer.

    Numbers. [VNum n] is the Number whose value is the integer [n], [VNaN]
    is [NaN] and [VInf negative] is [Infinity] or [-Infinity]. Numbers with
    a fractional part are outside the model. Every integer up to 2^53 in
    magnitude is a Number, and on these the model computes exactly; what
    the platform makes of an integer beyond that range (the double it
    rounds to, its text) is not computed here but asked of the platform,
    see [Numerics].

    Strings. A character of a [string] is one UTF-16 code unit below 256,
    so a [string] is a JavaScript string over the characters U+0000 to
    U+00FF; texts with other characters are outside the model. Among these
    characters the white space and line terminators of the language are
    U+0009 to U+000D, U+0020 and U+00A0 (see [is_ws]).

    An object is a finite map from property names to values. *)
Inductive value :=
| VUndef
| VNull
| VBool (b : bool)
| VNum (n : Z)
| VNaN
| VInf (negative : bool)
| VStr (s : string)
| VArr (l : list value)
| VObj (o : gmap string value).

(** The integers on which the model computes exactly: those that are
    Numbers, and whose text is their decimal expansion. *)
Definition safe_integer (n : Z) : bool := Z.abs n <=? 2 ^ 53.

(** What the platform makes of an integer beyond the safe range.
    [round_integer m] is the Number value for the mathematical integer [m]:
    the integer it is rounded to, or [None] when it is rounded to the
    infinity of the sign of [m]. [number_text n] is the text of the Number
    [n] (Number::toString), which is no longer the decimal expansion of [n]
    and takes the exponent form from 10^21 on. *)
Class Numerics := {
  round_integer : Z → option Z;
  number_text : Z → string
}.

(** ToBoolean. *)
Definition truthy (v : value) : bool :=
  match v with
  | VUndef | VNull | VNaN => false
  | VBool b => b
  | VNum n => negb (n =? 0)
  | VStr s => negb (String.eqb s "")
  | VInf _ | VArr _ | VObj _ => true
  end.

(** [a || b] when [b] has no effect. *)
Definition or_else (a b : value) : value := if truthy a then a else b.

(** [a === b] where [a] was just produced by [JSON.parse]: primitives are
    compared by value, [NaN] differs from everything, and an object or an
    array in [a] is a new reference, identical to nothing else. *)
Definition strict_eq (a b : value) : bool :=
  match a, b with
  | VUndef, VUndef => true
  | VNull, VNull => true
  | VBool x, VBool y => Bool.eqb x y
  | VNum x, VNum y => x =? y
  | VInf x, VInf y => Bool.eqb x y
  | VStr x, VStr y => String.eqb x y
  | _, _ => false
  end.

Definition nullish (v : value) : bool :=
  match v with VUndef | VNull => true | _ => false end.

Definition isArray (v : value) : bool :=
  match v with VArr _ => true | _ => false end.

(** [v.k] for a [v] that is neither [null] nor [undefined]. Only data
    properties are read by the code (id, name, items, data, ...): an object
    has them when it holds the key, every other value has none of them. *)
Definition prop (v : value) (k : string) : value :=
  match v with
  | VObj o => default VUndef (o !! k)
  | _ => VUndef
  end.

(** [v?.k]. *)
Definition opt_prop (v : value) (k : string) : value :=
  if nullish v then VUndef else prop v k.

(** The own enumerable properties copied by [{...v}]: those of an object,
    the indexed elements of an array, the characters of a string, and
    nothing for any other value. *)
Definition indexed (l : list value) : gmap string value :=
  list_to_map (imap (λ i x, (pretty i, x)) l).

Definition chars (s : string) : list value :=
  (λ c, VStr (String c EmptyString)) <$> String.list_ascii_of_string s.

Definition spread (v : value) : gmap string value :=
  match v with
  | VObj o => o
  | VArr l => indexed l
  | VStr s => indexed (chars s)
  | _ => ∅
  end.

Section Conversions.
Context `{Numerics}.

(** ToString, as used by template literals and by [parseInt]. The text of a
    safe integer is its decimal expansion. *)
Fixpoint to_string (v : value) : string :=
  match v with
  | VUndef => "undefined"
  | VNull => "null"
  | VBool true => "true"
  | VBool false => "false"
  | VNum n => if safe_integer n then pretty n else number_text n
  | VNaN => "NaN"
  | VInf false => "Infinity"
  | VInf true => "-Infinity"
  | VStr s => s
  | VArr l =>
      String.concat ","
        (map (λ x, match x with VUndef | VNull => "" | _ => to_string x end) l)
  | VObj _ => "[object Object]"
  end.

End Conversions.

(** What [JSON.stringify] keeps of a value: [None] where it yields
    [undefined]. A property holding [undefined] is dropped, an array element
    holding [undefined] becomes [null], and [NaN] and the infinities become
    [null]. *)
Fixpoint jsonify (v : value) : option value :=
  match v with
  | VUndef => None
  | VNaN | VInf _ => Some VNull
  | VArr l => Some (VArr (map (λ x, default VNull (jsonify x)) l))
  | VObj o => Some (VObj (omap jsonify o))
  | _ => Some v
  end.

(** A value is JSON-serializable when serialization loses nothing of it. *)
Definition is_json (v : value) : Prop := jsonify v = Some v.

(** A measure for induction over nested values. *)
Fixpoint vsize (v : value) : nat :=
  match v with
  | VArr l => S (foldr (λ x n, vsize x + n)%nat 0%nat l)
  | VObj o => S (map_fold (λ _ x n, vsize x + n)%nat 0%nat o)
  | _ => 0%nat
  end.

(** *** parseInt *)

(** White space and line terminators (StrWhiteSpaceChar) among the
    characters of the model: TAB, LF, VT, FF, CR, SP and NBSP (U+00A0). *)
Definition is_ws (c : ascii) : bool :=
  let n := Z.of_N (Ascii.N_of_ascii c) in
  ((9 <=? n) && (n <=? 13)) || (n =? 32) || (n =? 160).

Fixpoint skip_ws (s : string) : string :=
  match s with
  | String c s' => if is_ws c then skip_ws s' else s
  | EmptyString => s
  end.

Definition digit_val (radix : Z) (c : ascii) : option Z :=
  let n := Z.of_N (Ascii.N_of_ascii c) in
  let d :=
    if (48 <=? n) && (n <=? 57) then Some (n - 48)
    else if (97 <=? n) && (n <=? 122) then Some (n - 87)
    else if (65 <=? n) && (n <=? 90) then Some (n - 55)
    else None in
  match d with
  | Some k => if k <? radix then Some k else None
  | None => None
  end.

(** The value of the longest prefix of digits; [acc] is [None] until a digit
    has been read. *)
Fixpoint digits (radix : Z) (s : string) (acc : option Z) : option Z :=
  match s with
  | String c s' =>
      match digit_val radix c with
      | Some d => digits radix s' (Some (radix * default 0 acc + d))
      | None => acc
      end
  | EmptyString => acc
  end.

Definition strip_sign (s : string) : bool * string :=
  match s with
  | String "-"%char r => (true, r)
  | String "+"%char r => (false, r)
  | _ => (false, s)
  end.

Definition strip_radix (s : string) : Z * string :=
  match s with
  | String "0"%char (String "x"%char r) => (16, r)
  | String "0"%char (String "X"%char r) => (16, r)
  | _ => (10, s)
  end.

Section ParseInt.
Context `{Numerics}.

(** The Number value for the mathematical integer [m]. *)
Definition number_of_integer (m : Z) : value :=
  if safe_integer m then VNum m
  else match round_integer m with
       | Some d => VNum d
       | None => VInf (m <? 0)
       end.

(** [parseInt(s)] with no radix argument: leading white space, a sign, an
    optional hexadecimal prefix, then the longest run of digits, whose
    mathematical value is turned into a Number: itself when it is a safe
    integer, and what the platform rounds it to otherwise. The negative
    zero of JavaScript is the zero of [Z]; both are falsy. *)
Definition parseInt_string (s : string) : value :=
  let '(neg, s2) := strip_sign (skip_ws s) in
  let '(radix, s3) := strip_radix s2 in
  match digits radix s3 None with
  | None => VNaN
  | Some m => number_of_integer (if neg then - m else m)
  end.

Definition parseInt (v : value) : value := parseInt_string (to_string v).

End ParseInt.

(** *** String methods *)

(** [s] without its trailing white space. *)
Fixpoint rtrim (s : string) : string :=
  match s with
  | EmptyString => EmptyString
  | String c s' =>
      match rtrim s' with
      | EmptyString => if is_ws c then EmptyString else String c EmptyString
      | r => String c r
      end
  end.

(** [s.trim()]: white space and line terminators are removed at both
    ends. *)
Definition trim (s : string) : string := rtrim (skip_ws s).

(** [s.startsWith(p)]. *)
Definition startsWith (p s : string) : bool := String.prefix p s.

(** [s.includes(p)]. *)
Fixpoint includes (p s : string) : bool :=
  String.prefix p s ||
  match s with
  | String _ s' => includes p s'
  | EmptyString => false
  end.

Fixpoint string_drop (n : nat) (s : string) : string :=
  match n, s with
  | S n', String _ s' => string_drop n' s'
  | _, _ => s
  end.

(** [s.replace(p, r)] for a string pattern [p] and a replacement [r]
    without [$]: the first occurrence of [p] is replaced. *)
Fixpoint replace (p r s : string) : string :=
  if String.prefix p s then r +:+ string_drop (String.length p) s
  else match s with
       | String c s' => String c (replace p r s')
       | EmptyString => EmptyString
       end.

End JS.

(** ** The browser: storage, clock, transport and the effect monad *)

Module Browser.
Import JS.

(** What a [catch] clause can receive. [Rejection] carries the reason of a
    rejected request. *)
Inductive error :=
| TypeError
| SyntaxError
| SecurityError
| QuotaExceededError
| Rejection (reason : value).

Inductive outcome (A : Type) :=
| Ok (a : A)
| Throw (e : error).
Arguments Ok {A} a.
Arguments Throw {A} e.

(** A string held by [localStorage], up to what [JSON.parse] makes of it:
    [Json v] is the JSON text of [v]; [Plain s] is a text [s] that is not
    JSON (malformed content, a bare timestamp, the empty string). *)
Inductive text :=
| Json (v : value)
| Plain (s : string).

(** [blocked]: every access to [localStorage] throws (storage disabled).
    [full]: every write throws (quota exceeded). *)
Record localStorage := {
  items : gmap string text;
  blocked : bool;
  full : bool
}.

Inductive method := GET | POST | PUT | PATCH | DELETE.

Record request := {
  req_method : method;
  req_url : string;
  req_body : value
}.

(** How the transport settles a request before the interceptors run. *)
Inductive axios_result :=
| Fulfilled (response : value)
| Failed (err : value).

(** The environment the code runs in. [clock n] is the n-th reading of the
    system clock in milliseconds, [random n] the text of the n-th
    [Math.random()] draw, [transport n] the answer to the n-th request.
    [parseFloat] yields fractional numbers, which the number model does not
    cover, so it is taken from the platform, as are the conversions of
    integers beyond the safe range ([numerics]). *)
Class Platform := {
  numerics :: Numerics;
  clock : nat → Z;
  random : nat → string;
  transport : nat → request → axios_result;
  parseFloat : value → value
}.

Record state := {
  storage : localStorage;
  ticks : nat;
  draws : nat;
  sent : nat
}.

Definition M (A : Type) : Type := state → outcome A * state.

Definition ret {A} (a : A) : M A := λ st, (Ok a, st).

Definition bind {A B} (c : M A) (k : A → M B) : M B :=
  λ st, match c st with
        | (Ok a, st') => k a st'
        | (Throw e, st') => (Throw e, st')
        end.

Definition throw {A} (e : error) : M A := λ st, (Throw e, st).

(** [try { body } catch (e) { handler }]: what [body] wrote before it threw
    stays written. *)
Definition try_catch {A} (body : M A) (handler : error → M A) : M A :=
  λ st, match body st with
        | (Ok a, st') => (Ok a, st')
        | (Throw e, st') => handler e st'
        end.

Notation "x <- c ;; k" := (bind c (λ x, k))
  (at level 100, c at next level, right associativity).
Notation "c ;;; k" := (bind c (λ _, k))
  (at level 100, right associativity).

(** *** localStorage *)

Definition with_items (ls : localStorage) (m : gmap string text) : localStorage :=
  {| items := m; blocked := blocked ls; full := full ls |}.

Definition with_storage (st : state) (ls : localStorage) : state :=
  {| storage := ls; ticks := ticks st; draws := draws st; sent := sent st |}.

(** The state after [key] has been set to [t]. *)
Definition put (st : state) (key : string) (t : text) : state :=
  with_storage st (with_items (storage st) (<[key := t]> (items (storage st)))).

(** The state after one more clock reading, random draw, request. *)
Definition tick (st : state) : state :=
  {| storage := storage st; ticks := S (ticks st);
     draws := draws st; sent := sent st |}.

Definition drawn (st : state) : state :=
  {| storage := storage st; ticks := ticks st;
     draws := S (draws st); sent := sent st |}.

Definition requested (st : state) : state :=
  {| storage := storage st; ticks := ticks st;
     draws := draws st; sent := S (sent st) |}.

Definition getItem (key : string) : M (option text) :=
  λ st, if blocked (storage st) then (Throw SecurityError, st)
        else (Ok (items (storage st) !! key), st).

Definition setItem (key : string) (t : text) : M unit :=
  λ st, if blocked (storage st) then (Throw SecurityError, st)
        else if full (storage st) then (Throw QuotaExceededError, st)
        else (Ok tt, put st key t).

Definition removeItem (key : string) : M unit :=
  λ st, if blocked (storage st) then (Throw SecurityError, st)
        else (Ok tt, with_storage st
                       (with_items (storage st) (delete key (items (storage st))))).

(** [Object.keys(localStorage)]. The order of the keys is the platform's;
    here it is the order of the map. *)
Definition Object_keys_localStorage : M (list string) :=
  λ st, if blocked (storage st) then (Throw SecurityError, st)
        else (Ok ((map_to_list (items (storage st))).*1), st).

(** A missing item ([null]) and the empty string are falsy. *)
Definition item_truthy (i : option text) : bool :=
  match i with
  | None => false
  | Some (Json _) => true
  | Some (Plain s) => negb (String.eqb s "")
  end.

(** [item || "[]"]. *)
Definition item_or_empty_array (i : option text) : text :=
  match i with
  | Some t => if item_truthy i then t else Json (VArr [])
  | None => Json (VArr [])
  end.

(** *** JSON *)

Definition JSON_parse (t : text) : M value :=
  match t with
  | Json v => ret v
  | Plain _ => throw SyntaxError
  end.

(** [JSON.stringify(v)], as the text that [setItem] stores: where
    [JSON.stringify] yields [undefined], [setItem] stores its string
    conversion. *)
Definition JSON_stringify (v : value) : text :=
  match jsonify v with
  | Some j => Json j
  | None => Plain "undefined"
  end.

(** *** Property access and array methods *)

(** [v.k]: reading a property of [null] or [undefined] throws. *)
Definition get (v : value) (k : string) : M value :=
  if nullish v then throw TypeError else ret (prop v k).

(** The receiver of an array method ([filter], [findIndex], [some], [push],
    [map]): on anything but an array the method is missing and the call
    throws. *)
Definition as_array (v : value) : M (list value) :=
  match v with
  | VArr l => ret l
  | _ => throw TypeError
  end.

Fixpoint filterM (p : value → M bool) (l : list value) : M (list value) :=
  match l with
  | [] => ret []
  | x :: l' =>
      b <- p x ;;
      r <- filterM p l' ;;
      ret (if b then x :: r else r)
  end.

(** [findIndex]: [None] stands for -1. *)
Fixpoint findIndexM (p : value → M bool) (l : list value) : M (option nat) :=
  match l with
  | [] => ret None
  | x :: l' =>
      b <- p x ;;
      if b then ret (Some 0%nat)
      else (r <- findIndexM p l' ;; ret (S <$> r))
  end.

Fixpoint someM (p : value → M bool) (l : list value) : M bool :=
  match l with
  | [] => ret false
  | x :: l' => b <- p x ;; if b then ret true else someM p l'
  end.

(** [forEach] with a callback whose result is dropped. *)
Fixpoint forEachM {A B} (f : A → M B) (l : list A) : M unit :=
  match l with
  | [] => ret tt
  | x :: l' => f x ;;; forEachM f l'
  end.

(** [map] with the element index. *)
Fixpoint mapiM (f : value → nat → M value) (i : nat) (l : list value) : M (list value) :=
  match l with
  | [] => ret []
  | x :: l' =>
      y <- f x i ;;
      r <- mapiM f (S i) l' ;;
      ret (y :: r)
  end.

(** *** Clock *)

Section Clock.
Context `{Platform}.

Definition Date_now : M Z :=
  λ st, (Ok (clock (ticks st)), tick st).

Definition Math_random : M string :=
  λ st, (Ok (random (draws st)), drawn st).

End Clock.

(** Decimal digits of [n], padded with zeros to width [w]. *)
Definition pad (w : nat) (n : Z) : string :=
  let s := pretty n in
  String.string_of_list_ascii (replicate (w - String.length s) "0"%char) +:+ s.

(** Day number since 1970-01-01 to the civil date (year, month, day). *)
Definition civil_from_days (days : Z) : Z * Z * Z :=
  let z := days + 719468 in
  let era := z / 146097 in
  let doe := z - era * 146097 in
  let yoe := (doe - doe / 1460 + doe / 36524 - doe / 146096) / 365 in
  let doy := doe - (365 * yoe + yoe / 4 - yoe / 100) in
  let mp := (5 * doy + 2) / 153 in
  let d := doy - (153 * mp + 2) / 5 + 1 in
  let m := if mp <? 10 then mp + 3 else mp - 9 in
  let y := yoe + era * 400 + (if m <=? 2 then 1 else 0) in
  (y, m, d).

(** [new Date(ms).toISOString()]. *)
Definition toISOString (ms : Z) : string :=
  let '(y, m, d) := civil_from_days (ms / 86400000) in
  let r := ms mod 86400000 in
  let year :=
    if (0 <=? y) && (y <=? 9999) then pad 4 y
    else (if y <? 0 then "-" else "+") +:+ pad 6 (Z.abs y) in
  year +:+ "-" +:+ pad 2 m +:+ "-" +:+ pad 2 d +:+ "T" +:+
  pad 2 (r / 3600000) +:+ ":" +:+ pad 2 (r / 60000 mod 60) +:+ ":" +:+
  pad 2 (r / 1000 mod 60) +:+ "." +:+ pad 3 (r mod 1000) +:+ "Z".

End Browser.

(** ** Storage utilities (drafts, reviews, favourites)

    Every function is a [try] block whose [catch] logs and returns a
    default. Console output is not part of the embedding. A parameter with
    a default value ([draftId = "create"]) is passed explicitly. *)

Module DraftStorage.
Import JS Browser.

Definition DRAFT_KEY_PREFIX : string := "recipe_draft_".
Definition DRAFT_TIMESTAMP_KEY : string := "recipe_draft_timestamp".
Definition USER_PROFILE_KEY : string := "user_profile".
Definition REVIEWS_KEY : string := "recipe_reviews".
Definition FAVORITES_KEY : string := "user_favorites".

(** An object literal: the properties of [base] (a spread, or nothing), then
    the listed properties in order, a later one replacing an earlier one. *)
Definition object (base : gmap string value) (fields : list (string * value)) : value :=
  VObj (foldl (λ o kv, <[kv.1 := kv.2]> o) base fields).

(** The storage key of a draft; the same conditional opens [saveDraft],
    [loadDraft], [deleteDraft] and [hasDraft]. *)
Definition draft_key (draftId : string) : string :=
  if String.eqb draftId "user_profile" then USER_PROFILE_KEY
  else if String.eqb draftId FAVORITES_KEY then FAVORITES_KEY
  else DRAFT_KEY_PREFIX +:+ draftId.

Section Operations.
Context `{Platform}.

Definition saveDraft (draftData : value) (draftId : string) : M bool :=
  try_catch
    (let key := draft_key draftId in
     now <- Date_now ;;
     let timestamp := toISOString now in
     let draft := object (spread draftData) [("savedAt", VStr timestamp)] in
     setItem key (JSON_stringify draft) ;;;
     (if negb (String.eqb draftId "user_profile")
         && negb (String.eqb draftId FAVORITES_KEY)
      then setItem (key +:+ "_" +:+ DRAFT_TIMESTAMP_KEY) (Plain timestamp)
      else ret tt) ;;;
     ret true)
    (λ _, ret false).

Definition loadDraft (draftId : string) : M value :=
  try_catch
    (let key := draft_key draftId in
     draftJson <- getItem key ;;
     match draftJson with
     | Some t =>
         if negb (item_truthy draftJson) then ret VNull
         else
           draft <- JSON_parse t ;;
           ret draft
     | None => ret VNull
     end)
    (λ _, ret VNull).

Definition saveReview (reviewData : value) : M value :=
  try_catch
    (item <- getItem REVIEWS_KEY ;;
     reviews <- JSON_parse (item_or_empty_array item) ;;
     id <- Date_now ;;
     created <- Date_now ;;
     let newReview :=
       object (spread reviewData)
         [("id", VStr (to_string (VNum id))); ("created_at", VStr (toISOString created))] in
     l <- as_array reviews ;;
     setItem REVIEWS_KEY (JSON_stringify (VArr (l ++ [newReview]))) ;;;
     ret newReview)
    (λ _, ret VNull).

Definition loadUserReviews (userIdentifier : value) : M value :=
  try_catch
    (item <- getItem REVIEWS_KEY ;;
     reviews <- JSON_parse (item_or_empty_array item) ;;
     l <- as_array reviews ;;
     r <- filterM (λ review,
            u <- get review "user_identifier" ;;
            ret (strict_eq u userIdentifier)) l ;;
     ret (VArr r))
    (λ _, ret (VArr [])).

Definition saveFavorites (favoritesData : value) : M bool :=
  try_catch
    (setItem FAVORITES_KEY (JSON_stringify favoritesData) ;;;
     ret true)
    (λ _, ret false).

Definition loadFavorites : M value :=
  try_catch
    (item <- getItem FAVORITES_KEY ;;
     favoritesData <- JSON_parse (item_or_empty_array item) ;;
     if isArray favoritesData then ret favoritesData
     else ret (or_else (opt_prop favoritesData "items") (VArr [])))
    (λ _, ret (VArr [])).

(** The entry that [addToFavorites] builds: [id] is [recipe.id || Date.now()]
    and [added] the clock reading behind [added_at]. *)
Definition favoriteRecipe (recipe id : value) (added : Z) : value :=
  object ∅
    [("id", id);
     ("name", or_else (prop recipe "name") (VStr "Unnamed Recipe"));
     ("description", or_else (prop recipe "description") (VStr ""));
     ("image_url", or_else (prop recipe "image_url") (VStr ""));
     ("category", or_else (prop recipe "category") (VStr "makanan"));
     ("prep_time", or_else (or_else (prop recipe "prep_time")
                              (prop recipe "cook_time")) (VStr "15"));
     ("cook_time", or_else (prop recipe "cook_time") (VStr "15"));
     ("difficulty", or_else (prop recipe "difficulty") (VStr "mudah"));
     ("average_rating", or_else (prop recipe "average_rating") (VNum 0));
     ("servings", or_else (prop recipe "servings") (VNum 4));
     ("ingredients", or_else (prop recipe "ingredients") (VArr []));
     ("steps", or_else (prop recipe "steps") (VArr []));
     ("added_at", VStr (toISOString added))].

(** Past the first read of [recipe.id], [recipe] is known not to be [null]
    or [undefined], and its other properties are read with [prop]. *)
Definition addToFavorites (recipe : value) : M bool :=
  try_catch
    (favorites <- loadFavorites ;;
     rid <- get recipe "id" ;;
     id <- (if truthy rid then ret rid else (now <- Date_now ;; ret (VNum now))) ;;
     added <- Date_now ;;
     l <- as_array favorites ;;
     existingIndex <- findIndexM (λ fav,
                        fid <- get fav "id" ;;
                        ret (strict_eq fid (prop recipe "id"))) l ;;
     match existingIndex with
     | None =>
         setItem FAVORITES_KEY
           (JSON_stringify (VArr (l ++ [favoriteRecipe recipe id added]))) ;;;
         ret true
     | Some _ => ret false
     end)
    (λ _, ret false).

Definition removeFromFavorites (recipeId : value) : M bool :=
  try_catch
    (favorites <- loadFavorites ;;
     l <- as_array favorites ;;
     updatedFavorites <- filterM (λ fav,
                           fid <- get fav "id" ;;
                           ret (negb (strict_eq fid recipeId))) l ;;
     setItem FAVORITES_KEY (JSON_stringify (VArr updatedFavorites)) ;;;
     ret true)
    (λ _, ret false).

Definition isRecipeFavorited (recipeId : value) : M bool :=
  try_catch
    (favorites <- loadFavorites ;;
     l <- as_array favorites ;;
     someM (λ fav,
        fid <- get fav "id" ;;
        ret (strict_eq fid recipeId)) l)
    (λ _, ret false).

Definition deleteDraft (draftId : string) : M bool :=
  try_catch
    (let key := draft_key draftId in
     removeItem key ;;;
     (if negb (String.eqb draftId "user_profile")
         && negb (String.eqb draftId FAVORITES_KEY)
      then removeItem (key +:+ "_" +:+ DRAFT_TIMESTAMP_KEY)
      else ret tt) ;;;
     ret true)
    (λ _, ret false).

(** [localStorage.getItem(key) !== null]. *)
Definition hasDraft (draftId : string) : M bool :=
  try_catch
    (let key := draft_key draftId in
     item <- getItem key ;;
     ret (bool_decide (is_Some item)))
    (λ _, ret false).

(** The timestamp record, as the string it holds; [None] is [null]. The
    key is always the prefixed one, also for the reserved identifiers. *)
Definition getDraftTimestamp (draftId : string) : M (option text) :=
  try_catch
    (let key := DRAFT_KEY_PREFIX +:+ draftId in
     getItem (key +:+ "_" +:+ DRAFT_TIMESTAMP_KEY))
    (λ _, ret None).

Definition getAllDraftIds : M (list string) :=
  try_catch
    (keys <- Object_keys_localStorage ;;
     let draftKeys :=
       List.filter (λ key, startsWith DRAFT_KEY_PREFIX key
                           && negb (includes DRAFT_TIMESTAMP_KEY key)) keys in
     ret (map (λ key, replace DRAFT_KEY_PREFIX "" key) draftKeys))
    (λ _, ret []).

Definition clearAllDrafts : M bool :=
  try_catch
    (draftIds <- getAllDraftIds ;;
     forEachM deleteDraft draftIds ;;;
     ret true)
    (λ _, ret false).

End Operations.
End DraftStorage.

(** ** The favourite toggle hook *)

Module UseFavorites.
Import JS Browser DraftStorage.

Section Hook.
Context `{Platform}.

(** The body of [toggleFavorite]. The [loading] and [error] flags of the
    hook are component state and are not part of the embedding. The body has
    no [await]: one call is one uninterrupted computation. *)
Definition toggleFavorite (recipe : value) : M value :=
  try_catch
    (rid <- get recipe "id" ;;
     isFavorited <- isRecipeFavorited rid ;;
     if isFavorited then
       (rid' <- get recipe "id" ;;
        removeFromFavorites rid' ;;;
        ret (VBool false))
     else
       (addToFavorites recipe ;;;
        ret (VBool true)))
    (λ _, ret VNull).

End Hook.
End UseFavorites.

(** ** The review service

    An [await] is the point where the answer of the transport is obtained;
    what other handlers do while a request is pending is not part of the
    embedding. *)

Module ReviewService.
Import JS Browser DraftStorage.

Section Service.
Context `{Platform}.

(** A request through the configured client. The response interceptor
    hands over [response.data] of a fulfilled request and rejects a failed
    one with [error.response?.data || error]. *)
Definition apiClient (m : method) (url : string) (body : value) : M value :=
  λ st,
    match transport (sent st)
            {| req_method := m; req_url := url; req_body := body |} with
    | Fulfilled response => (Ok (prop response "data"), requested st)
    | Failed err =>
        (Throw (Rejection (or_else (opt_prop (opt_prop err "response") "data") err)),
         requested st)
    end.

Definition reviews_url (recipeId : value) : string :=
  "/api/v1/recipes/" +:+ to_string recipeId +:+ "/reviews".

Definition review_url (reviewId : value) : string :=
  "/api/v1/reviews/" +:+ to_string reviewId.

Definition getReviewsFromStorage (recipeId : value) : M value :=
  try_catch
    (item <- getItem REVIEWS_KEY ;;
     allReviews <- JSON_parse (item_or_empty_array item) ;;
     l <- as_array allReviews ;;
     r <- filterM (λ review,
            rid <- get review "recipe_id" ;;
            ret (strict_eq rid recipeId)) l ;;
     ret (VArr r))
    (λ _, ret (VArr [])).


(** The record that [saveReviewToStorage] builds: [id] is the clock reading
    behind [Date.now().toString()] and [created] the one behind
    [created_at]. *)
Definition newReview (recipeId reviewData : value) (id created : Z) : value :=
  object ∅
    [("id", VStr (to_string (VNum id)));
     ("recipe_id", recipeId);
     ("recipe_name", prop reviewData "recipe_name");
     ("category", prop reviewData "category");
     ("user_identifier", prop reviewData "user_identifier");
     ("rating", prop reviewData "rating");
     ("comment", or_else (prop reviewData "comment") (VStr ""));
     ("created_at", VStr (toISOString created))].

(** The first property read of [reviewData] is [recipe_name]; it throws on
    [null] and [undefined], after the first clock reading. *)
Definition saveReviewToStorage (recipeId reviewData : value) : M value :=
  try_catch
    (item <- getItem REVIEWS_KEY ;;
     allReviews <- JSON_parse (item_or_empty_array item) ;;
     id <- Date_now ;;
     get reviewData "recipe_name" ;;;
     created <- Date_now ;;
     l <- as_array allReviews ;;
     setItem REVIEWS_KEY
       (JSON_stringify (VArr (l ++ [newReview recipeId reviewData id created]))) ;;;
     ret (newReview recipeId reviewData id created))
    (λ _, ret VNull).

Definition createReview (recipeId reviewData : value) : M value :=
  try_catch
    (response <- apiClient POST (reviews_url recipeId) reviewData ;;
     success <- get response "success" ;;
     (if truthy success || truthy (prop response "data")
      then saveReviewToStorage recipeId reviewData ;;; ret tt
      else ret tt) ;;;
     ret response)
    (λ _,
       saveReviewToStorage recipeId reviewData ;;;
       ret (object ∅ [("success", VBool true); ("data", reviewData);
                      ("offline", VBool true)])).

Definition updateReview (reviewId reviewData : value) : M value :=
  try_catch
    (response <- apiClient PUT (review_url reviewId) reviewData ;;
     ret response)
    (λ error, throw error).

Definition deleteReview (reviewId : value) : M value :=
  try_catch
    (response <- apiClient DELETE (review_url reviewId) VUndef ;;
     ret response)
    (λ error, throw error).

End Service.
End ReviewService.

(** ** The recipe service: normalization of a recipe received from the API *)

Module RecipeService.
Import JS Browser DraftStorage ReviewService.

Section Service.
Context `{Platform}.

(** [`prefix-${Date.now()}-${Math.random()}`] *)
Definition fresh_id (prefix : string) : M value :=
  now <- Date_now ;;
  r <- Math_random ;;
  ret (VStr (prefix +:+ "-" +:+ to_string (VNum now) +:+ "-" +:+ r)).

Definition normalizeIngredient (ingredient : value) (index : nat) : M value :=
  i <- get ingredient "id" ;;
  id <- (if truthy i then ret i else fresh_id "ingredient") ;;
  ret (object ∅
         [("id", id);
          ("name", or_else (prop ingredient "name") (VStr ""));
          ("quantity", or_else (prop ingredient "quantity") (VStr ""))]).

Definition normalizeStep (step : value) (index : nat) : M value :=
  i <- get step "id" ;;
  id <- (if truthy i then ret i else fresh_id "step") ;;
  ret (object ∅
         [("id", id);
          ("step_number", or_else (prop step "step_number") (VNum (Z.of_nat index + 1)));
          ("instruction", or_else (prop step "instruction") (VStr ""))]).

Definition normalizeRecipeData (recipe : value) : M value :=
  if negb (truthy recipe) then ret recipe
  else
    ingredients <-
      match prop recipe "ingredients" with
      | VArr l => (r <- mapiM normalizeIngredient 0 l ;; ret (VArr r))
      | _ => ret (VArr [])
      end ;;
    steps <-
      match prop recipe "steps" with
      | VArr l => (r <- mapiM normalizeStep 0 l ;; ret (VArr r))
      | _ => ret (VArr [])
      end ;;
    ret (object (spread recipe)
           [("ingredients", ingredients);
            ("steps", steps);
            ("image_url", or_else (or_else (prop recipe "image_url")
                                     (prop recipe "image")) (VStr ""));
            ("prep_time", or_else (parseInt (prop recipe "prep_time")) (VNum 0));
            ("cook_time", or_else (parseInt (prop recipe "cook_time")) (VNum 0));
            ("servings", or_else (parseInt (prop recipe "servings")) (VNum 1));
            ("average_rating", or_else (parseFloat (prop recipe "average_rating")) (VNum 0));
            ("review_count", or_else (parseInt (prop recipe "review_count")) (VNum 0));
            ("name", or_else (prop recipe "name") (VStr "Untitled Recipe"));
            ("description", or_else (prop recipe "description") (VStr ""));
            ("category", or_else (prop recipe "category") (VStr "makanan"));
            ("difficulty", or_else (prop recipe "difficulty") (VStr "mudah"))]).

(** [v?.trim()]: [undefined] for [null] and [undefined], the trimmed string
    for a string; any other value has no [trim] method and the call
    throws. *)
Definition opt_trim (v : value) : M value :=
  match v with
  | VUndef | VNull => ret VUndef
  | VStr s => ret (VStr (trim s))
  | _ => throw TypeError
  end.

(** [v.trim()]. *)
Definition call_trim (v : value) : M value :=
  match v with
  | VStr s => ret (VStr (trim s))
  | _ => throw TypeError
  end.

Definition prepareIngredient (ingredient : value) (index : nat) : M value :=
  n <- get ingredient "name" ;;
  name <- opt_trim n ;;
  quantity <- opt_trim (prop ingredient "quantity") ;;
  ret (object ∅ [("name", or_else name (VStr ""));
                 ("quantity", or_else quantity (VStr ""))]).

Definition prepareStep (step : value) (index : nat) : M value :=
  match step with
  | VStr s => ret (VStr (trim s))
  | _ =>
      if truthy step && truthy (prop step "instruction")
      then call_trim (prop step "instruction")
      else ret VNull
  end.

(** [step.length > 0] for the strings and [null]s that [prepareStep]
    yields. *)
Definition length_positive (v : value) : bool :=
  match v with
  | VStr s => negb (String.eqb s "")
  | _ => false
  end.

Definition prepareRecipeData (recipeData currentRecipe : value) : M value :=
  let preparedData := spread recipeData in
  ingredients <-
    match default VUndef (preparedData !! "ingredients") with
    | VArr l =>
        (r <- mapiM prepareIngredient 0 l ;;
         ret (VArr (List.filter
                      (λ ingredient, truthy (prop ingredient "name")
                                     && truthy (prop ingredient "quantity")) r)))
    | _ => ret (VArr [])
    end ;;
  let preparedData := <["ingredients" := ingredients]> preparedData in
  steps <-
    match default VUndef (preparedData !! "steps") with
    | VArr l =>
        (r <- mapiM prepareStep 0 l ;;
         ret (VArr (List.filter (λ step, truthy step && length_positive step) r)))
    | _ => ret (VArr [])
    end ;;
  let preparedData := <["steps" := steps]> preparedData in
  let preparedData :=
    if negb (truthy (default VUndef (preparedData !! "image_url")))
       && truthy (opt_prop currentRecipe "image_url")
    then <["image_url" := prop currentRecipe "image_url"]> preparedData
    else preparedData in
  let preparedData :=
    <["servings" := or_else (parseInt (default VUndef (preparedData !! "servings"))) (VNum 1)]>
      (<["cook_time" := or_else (parseInt (default VUndef (preparedData !! "cook_time"))) (VNum 0)]>
         (<["prep_time" := or_else (parseInt (default VUndef (preparedData !! "prep_time"))) (VNum 0)]>
            preparedData)) in
  name <- opt_trim (default VUndef (preparedData !! "name")) ;;
  let preparedData := <["name" := or_else name (VStr "")]> preparedData in
  description <- opt_trim (default VUndef (preparedData !! "description")) ;;
  let preparedData := <["description" := or_else description (VStr "")]> preparedData in
  ret (VObj (filter (λ kv, nullish kv.2 = false) preparedData)).

(** [response.data.data = v], on a response whose [data] is an object. *)
Definition set_data_data (response v : value) : value :=
  match response with
  | VObj r =>
      match r !! "data" with
      | Some (VObj d) => VObj (<["data" := VObj (<["data" := v]> d)]> r)
      | _ => response
      end
  | _ => response
  end.

(** The shared tail of the service calls: when [response.data.data] is
    truthy it is replaced by its normalization. *)
Definition normalizeResponse (response : value) : M value :=
  d <- get response "data" ;;
  if truthy d && truthy (prop d "data")
  then (n <- normalizeRecipeData (prop d "data") ;;
        ret (set_data_data response n))
  else ret response.

Definition recipe_url (id : value) : string :=
  "/api/v1/recipes/" +:+ to_string id.

Definition getRecipeById (id : value) : M value :=
  try_catch
    (response <- apiClient GET (recipe_url id) VUndef ;;
     normalizeResponse response)
    (λ error, throw error).

Definition createRecipe (recipeData : value) : M value :=
  try_catch
    (preparedData <- prepareRecipeData recipeData VNull ;;
     response <- apiClient POST "/api/v1/recipes" preparedData ;;
     normalizeResponse response)
    (λ error, throw error).

Definition updateRecipe (id recipeData : value) : M value :=
  try_catch
    (currentRecipe <-
       try_catch
         (currentResponse <- getRecipeById id ;;
          d <- get currentResponse "data" ;;
          if truthy d && truthy (prop d "data") then ret (prop d "data")
          else ret VNull)
         (λ _, ret VNull) ;;
     preparedData <- prepareRecipeData recipeData currentRecipe ;;
     response <- apiClient PUT (recipe_url id) preparedData ;;
     normalizeResponse response)
    (λ error, throw error).

Definition patchRecipe (id partialData : value) : M value :=
  try_catch
    (response <- apiClient PATCH (recipe_url id) partialData ;;
     normalizeResponse response)
    (λ error, throw error).

Definition deleteRecipe (id : value) : M value :=
  try_catch
    (response <- apiClient DELETE (recipe_url id) VUndef ;;
     ret response)
    (λ error, throw error).

End Service.
End RecipeService.

(** ** Sample environments used by the concrete checks *)

Module Samples.
Import JS Browser DraftStorage.

(** A working storage holding [m]. *)
Definition storage_of (m : gmap string text) : localStorage :=
  {| items := m; blocked := false; full := false |}.

Definition state_of (m : gmap string text) : state :=
  {| storage := storage_of m; ticks := 0; draws := 0; sent := 0 |}.

Definition empty_state : state := state_of ∅.

(** Conversions for the examples, whose numbers are all safe integers: the
    platform's answers beyond the safe range are never consulted there. *)
Definition plain_numerics : Numerics :=
  {| round_integer := λ m, if Z.abs m <? 2 ^ 1024 then Some m else None;
     number_text := λ n, pretty n |}.

(** A platform whose clock advances by one millisecond per reading and whose
    server is unreachable. Its [parseFloat] is exact on numbers and on
    [undefined], the only arguments it receives in the examples. *)
Definition offline_platform : Platform :=
  {| numerics := plain_numerics;
     clock := λ n, 1700000000000 + Z.of_nat n;
     random := λ _, "0.5";
     transport := λ _ _,
       Failed (VObj {[ "message" := VStr "Network Error" ]});
     parseFloat := λ v, match v with VNum n => VNum n | _ => VNaN end |}.

(** The same platform with a clock that stands still. *)
Definition frozen_platform : Platform :=
  {| numerics := numerics (Platform := offline_platform);
     clock := λ _, 1700000000000;
     random := random (Platform := offline_platform);
     transport := transport (Platform := offline_platform);
     parseFloat := parseFloat (Platform := offline_platform) |}.




(** A storage whose three records are all undecodable. *)
Definition corrupt_state : state :=
  state_of {[ draft_key "create" := Plain "{name:";
              FAVORITES_KEY := Plain "[1,";
              REVIEWS_KEY := Plain "<html>" ]}.

(** The favourites as an older version wrote them. *)
Definition legacy_state : state :=
  state_of {[ FAVORITES_KEY :=
                Json (VObj {[ "items" := VArr [VObj {[ "id" := VStr "r2" ]}] ]}) ]}.

(** A draft of the creation form. *)
Definition soto_draft : value := VObj {[ "name" := VStr "Soto" ]}.

(** Two stored favourites. *)
Definition soto_entry : value :=
  VObj {[ "id" := VStr "r1"; "name" := VStr "Soto" ]}.
Definition rendang_entry : value :=
  VObj {[ "id" := VStr "r2"; "name" := VStr "Rendang" ]}.

Definition two_favorites_state : state :=
  state_of {[ FAVORITES_KEY := Json (VArr [soto_entry; rendang_entry]) ]}.

(** A recipe whose identifier is the number 0, one with a string
    identifier, and one without identifier. *)
Definition recipe_zero : value :=
  VObj {[ "id" := VNum 0; "name" := VStr "Soto" ]}.
Definition recipe_unnamed : value :=
  VObj {[ "name" := VStr "Rendang" ]}.

(** Favourites holding one entry that has no identifier. *)
Definition anonymous_entry_state : state :=
  state_of {[ FAVORITES_KEY := Json (VArr [VObj {[ "name" := VStr "Soto" ]}]) ]}.

(** Favourites and reviews that each hold one [null]. *)
Definition null_entries_state : state :=
  state_of {[ FAVORITES_KEY := Json (VArr [VNull]);
              REVIEWS_KEY := Json (VArr [VNull]) ]}.

(** A review as the detail page submits it. *)
Definition sample_review : value :=
  VObj {[ "user_identifier" := VStr "user-1"; "rating" := VNum 5;
          "comment" := VStr "Enak"; "recipe_name" := VStr "Soto";
          "category" := VStr "makanan" ]}.

(** A recipe as the API may send it, with negative numeric fields. *)
Definition recipe_negative : value :=
  VObj {[ "id" := VStr "r7"; "name" := VStr "Soto";
          "prep_time" := VStr "-5"; "cook_time" := VNum (-10);
          "servings" := VNum (-2) ]}.

(** A recipe with no name, no steps, one ingredient without identifier and
    numeric fields that are not numbers. *)
Definition recipe_sparse : value :=
  VObj {[ "id" := VStr "r8";
          "ingredients" := VArr [VObj {[ "name" := VStr "Garam" ]}];
          "prep_time" := VStr "soon"; "servings" := VStr "0" ]}.

(** A storage holding the creation draft and the draft of recipe "r7". *)
Definition two_drafts_state : state :=
  state_of {[ draft_key "create" := Json soto_draft;
              "recipe_draft_create_recipe_draft_timestamp" := Plain "2023-11-14T22:13:20.000Z";
              draft_key "r7" := Json (VObj {[ "name" := VStr "Rendang" ]}) ]}.

(** A storage with two drafts, a profile, and a draft whose identifier
    is "timestamp". *)
Definition many_drafts_state : state :=
  state_of {[ draft_key "create" := Json soto_draft;
              "recipe_draft_create_recipe_draft_timestamp" := Plain "2023-11-14T22:13:20.000Z";
              draft_key "r7" := Json (VObj {[ "name" := VStr "Rendang" ]});
              draft_key "timestamp" := Json (VObj {[ "name" := VStr "Gado-gado" ]});
              USER_PROFILE_KEY := Json (VObj {[ "username" := VStr "Pengguna" ]}) ]}.

(** A storage holding one favourite and having no room left: every write
    is refused. *)
Definition full_state : state :=
  {| storage := {| items := {[ FAVORITES_KEY := Json (VArr [soto_entry]) ]};
                   blocked := false; full := true |};
     ticks := 0; draws := 0; sent := 0 |}.

(** A storage that cannot be accessed at all. *)
Definition blocked_state : state :=
  {| storage := {| items := ∅; blocked := true; full := false |};
     ticks := 0; draws := 0; sent := 0 |}.



(** A recipe whose first step has no number and whose second step is
    numbered 5. *)
Definition recipe_two_steps : value :=
  VObj {[ "id" := VStr "r9"; "author" := VStr "Ibu";
          "steps" := VArr [VObj {[ "instruction" := VStr "Rebus" ]};
                           VObj {[ "id" := VStr "s2"; "step_number" := VNum 5;
                                   "instruction" := VStr "Sajikan" ]}] ]}.

(** A form whose name is a number. *)
Definition form_numeric_name : value :=
  VObj {[ "name" := VNum 42; "description" := VStr "Kuah kuning" ]}.

End Samples.

(** ** Vocabulary of the properties *)

Module Props.
Import JS Browser DraftStorage UseFavorites ReviewService RecipeService.

(** A computation is read-only when it hands back the state it was given,
    whether it returns or throws. *)
Definition readonly {A} (c : M A) : Prop := ∀ st, (c st).2 = st.

(** The content under [key] cannot be decoded, or the storage cannot be
    accessed at all. *)
Definition unreadable (st : state) (key : string) : Prop :=
  blocked (storage st) = true ∨
  ∃ s, items (storage st) !! key = Some (Plain s).

(** The storage can be read and written. *)
Definition working (st : state) : Prop :=
  blocked (storage st) = false ∧ full (storage st) = false.

(** The value that [loadFavorites] reads out of a storage (see
    [loadFavorites_run]). *)
Definition favorites_in (ls : localStorage) : value :=
  if blocked ls then VArr []
  else match items ls !! FAVORITES_KEY with
       | Some (Json j) =>
           if isArray j then j else or_else (opt_prop j "items") (VArr [])
       | Some (Plain _) | None => VArr []
       end.

(** If [v] is an array, none of its elements is [null] or [undefined]. *)
Definition elements_present (v : value) : Prop :=
  match v with
  | VArr l => Forall (λ x, nullish x = false) l
  | _ => True
  end.

(** The text of [v] starts, after white space, with a minus sign. *)
Definition minus_sign `{Numerics} (v : value) : Prop :=
  ∃ r, skip_ws (to_string v) = String "-"%char r.

(** The text of [v] has at most 15 characters: whatever digits it holds
    make a safe integer (15 decimal digits, or 13 hexadecimal digits after
    the prefix). *)
Definition short_text `{Numerics} (v : value) : Prop :=
  (String.length (to_string v) ≤ 15)%nat.

(** What [parseInt(field) || d] is: a number other than [NaN], so an
    integer or an infinity; and when the text of [field] is short, a safe
    integer, which is below the default [d] only if [field] itself parses
    to that negative integer, its text starting with a minus sign. *)
Definition parsed_number `{Numerics} (field out : value) (d : Z) : Prop :=
  ((∃ p, out = VNum p) ∨ (∃ negative, out = VInf negative)) ∧
  (short_text field →
   ∃ p, out = VNum p ∧ Z.abs p < 2 ^ 53 ∧
        (p < d → parseInt field = VNum p ∧ minus_sign field)).



(** The computation [c] leaves the local storage as it is (it may read the
    clock, draw random numbers and send requests). *)
Definition keeps_storage {A} (c : M A) : Prop := ∀ st, storage (c st).2 = storage st.


(** A step and an ingredient as [normalizeRecipeData] returns them for the
    element [step] at position [index], and for [ingredient]. *)
Definition normalized_step (index : nat) (step out : value) : Prop :=
  truthy (prop out "id") = true ∧
  (truthy (prop step "id") = true → prop out "id" = prop step "id") ∧
  prop out "step_number" = or_else (prop step "step_number") (VNum (Z.of_nat index + 1)) ∧
  prop out "instruction" = or_else (prop step "instruction") (VStr "").

Definition normalized_ingredient (index : nat) (ingredient out : value) : Prop :=
  truthy (prop out "id") = true ∧
  (truthy (prop ingredient "id") = true → prop out "id" = prop ingredient "id") ∧
  prop out "name" = or_else (prop ingredient "name") (VStr "") ∧
  prop out "quantity" = or_else (prop ingredient "quantity") (VStr "").

(** The properties that [normalizeRecipeData] sets itself. *)
Definition normalized_keys : list string :=
  ["ingredients"; "steps"; "image_url"; "prep_time"; "cook_time"; "servings";
   "average_rating"; "review_count"; "name"; "description"; "category";
   "difficulty"].

(** The property [k] of the copy [{...recipeData}] that
    [prepareRecipeData] works on. *)
Definition field (recipeData : value) (k : string) : value :=
  default VUndef (spread recipeData !! k).

(** A string, or nothing: the values on which [v?.trim()] does not throw. *)
Definition text_or_absent (v : value) : bool :=
  match v with
  | VUndef | VNull | VStr _ => true
  | _ => false
  end.

(** An ingredient of a form: not [null], its [name] and [quantity] strings
    or absent. A step of a form: a string, or a value whose [instruction] is
    a string or falsy. *)
Definition ingredient_ok (ingredient : value) : Prop :=
  nullish ingredient = false ∧
  text_or_absent (prop ingredient "name") = true ∧
  text_or_absent (prop ingredient "quantity") = true.

Definition step_ok (step : value) : bool :=
  match prop step "instruction" with
  | VStr _ => true
  | v => negb (truthy v)
  end.


(** A text without white space at either end, and not empty. *)
Definition trimmed (s : string) : Prop := trim s = s ∧ s ≠ "".

(** An ingredient and a step as [prepareRecipeData] sends them. *)
Definition prepared_ingredient (ingredient : value) : Prop :=
  ∃ name quantity,
    ingredient = object ∅ [("name", VStr name); ("quantity", VStr quantity)] ∧
    trimmed name ∧ trimmed quantity.

Definition prepared_step (step : value) : Prop :=
  ∃ s, step = VStr s ∧ trimmed s.



(** The envelope that [createReview] returns when it falls back to the
    local storage. *)
Definition offline_envelope (reviewData : value) : value :=
  object ∅ [("success", VBool true); ("data", reviewData); ("offline", VBool true)].

(** [fav.id === rid] for a stored entry [fav]. *)
Definition same_id (rid fav : value) : bool := strict_eq (prop fav "id") rid.

(** The stored entries whose identifier is [rid]. *)
Definition entries_with (rid : value) (l : list value) : list value :=
  List.filter (same_id rid) l.


(** The favourites hold [l] and every entry of [l] is a JSON value other
    than [null]. *)
Definition favorites_are (st : state) (l : list value) : Prop :=
  loadFavorites st = (Ok (VArr l), st) ∧
  Forall (λ fav, nullish fav = false ∧ is_json fav) l.



(** What is read back of [v] once it has been written as an array
    element. *)
Definition stored (v : value) : value := default VNull (jsonify v).

(** A primitive that [JSON.stringify] writes as it is. *)
Definition plain_json (v : value) : bool :=
  match v with
  | VNull | VBool _ | VNum _ | VStr _ => true
  | _ => false
  end.




(** The value that [loadDraft] reads out of a storage (see
    [loadDraft_run]). *)
Definition draft_in (ls : localStorage) (draftId : string) : value :=
  if blocked ls then VNull
  else match items ls !! draft_key draftId with
       | Some (Json v) => v
       | Some (Plain _) | None => VNull
       end.

(** The key under which a draft's timestamp is recorded. *)
Definition timestamp_key (draftId : string) : string :=
  draft_key draftId +:+ "_" +:+ DRAFT_TIMESTAMP_KEY.

(** The two identifiers that are not kept under the draft prefix. *)
Definition reserved (draftId : string) : bool :=
  String.eqb draftId "user_profile" || String.eqb draftId FAVORITES_KEY.

(** The items left when the drafts [ids] have been deleted one after the
    other. *)
Definition without_draft (m : gmap string text) (draftId : string) : gmap string text :=
  if reserved draftId then delete (draft_key draftId) m
  else delete (timestamp_key draftId) (delete (draft_key draftId) m).

Definition without_drafts (ids : list string) (m : gmap string text) : gmap string text :=
  foldl without_draft m ids.

End Props.

(** * Properties *)

Import JS Browser DraftStorage UseFavorites ReviewService RecipeService Samples Props.

(** ** Values *)

Lemma vsize_elem (l : list value) x : x ∈ l → (vsize x < vsize (VArr l))%nat.
Proof. induction 1; simpl in *; lia. Qed.

Lemma vsize_field (o : gmap string value) k x :
  o !! k = Some x → (vsize x < vsize (VObj o))%nat.
Proof.
  intros Hk. simpl. rewrite <- (insert_delete_id o k x Hk).
  rewrite map_fold_insert_L; [lia | intros; lia | apply lookup_delete_eq].
Qed.

(** Induction over values, with the hypothesis available for every element
    of an array and every property of an object. *)
Lemma value_nested_ind (P : value → Prop) :
  P VUndef → P VNull → (∀ b, P (VBool b)) → (∀ n, P (VNum n)) → P VNaN →
  (∀ b, P (VInf b)) → (∀ s, P (VStr s)) →
  (∀ l, Forall P l → P (VArr l)) →
  (∀ o : gmap string value, map_Forall (λ _, P) o → P (VObj o)) →
  ∀ v, P v.
Proof.
  intros ? ? ? ? ? ? ? Harr Hobj v.
  remember (vsize v) as n eqn:Hn. revert v Hn.
  induction n as [n IH] using lt_wf_ind. intros v ->.
  destruct v; auto.
  - apply Harr, Forall_forall. intros x Hx.
    eapply IH; [|reflexivity]. by apply vsize_elem.
  - apply Hobj. intros k x Hk.
    eapply IH; [|reflexivity]. by eapply vsize_field.
Qed.

(** Serializing twice is serializing once: what [JSON.stringify] writes is
    JSON-serializable. *)
Lemma jsonify_is_json v j : jsonify v = Some j → is_json j.
Proof.
  unfold is_json. revert j.
  induction v as [| | | | | | |l IH|o IH] using value_nested_ind;
    intros j Hj; simpl in Hj; simplify_eq; try done.
  - simpl. do 2 f_equal. rewrite map_map. apply map_ext_Forall.
    eapply Forall_impl; [exact IH|]. intros x Hx. simpl.
    destruct (jsonify x) as [y|] eqn:E; simpl; [by rewrite (Hx y E)|done].
  - simpl. do 2 f_equal. apply map_eq. intros k. rewrite !lookup_omap.
    destruct (o !! k) as [x|] eqn:E; simpl; [|done].
    destruct (jsonify x) as [y|] eqn:E2; simpl; [|done].
    eapply IH; eauto.
Qed.

Lemma is_json_default x : is_json x → default VNull (jsonify x) = x.
Proof. unfold is_json. by intros ->. Qed.

Lemma is_json_arr l : is_json (VArr l) ↔ Forall is_json l.
Proof.
  split.
  - unfold is_json at 1. simpl. intros Hl. assert (Hm : map (λ x, default VNull (jsonify x)) l = l) by congruence.
    clear Hl. induction l as [|x l IH]; [constructor|].
    simpl in Hm. injection Hm as Hx Hm. constructor; [|by apply IH].
    unfold is_json. destruct x; simpl in *; congruence.
  - unfold is_json at 2. simpl. intros Hl. do 2 f_equal. induction Hl as [|x l Hx _ IH]; [done|].
    simpl. by rewrite IH, (is_json_default x Hx).
Qed.

Lemma is_json_obj (o : gmap string value) :
  is_json (VObj o) ↔ map_Forall (λ _, is_json) o.
Proof.
  unfold is_json. simpl. split.
  - intros Ho k x Hk. assert (Hm : omap jsonify o = o) by congruence.
    apply (f_equal (.!! k)) in Hm. rewrite lookup_omap, Hk in Hm. simpl in Hm.
    by rewrite Hm.
  - intros Ho. do 2 f_equal. apply map_eq. intros k. rewrite lookup_omap.
    destruct (o !! k) as [x|] eqn:E; simpl; [|done]. by apply Ho in E.
Qed.

Lemma is_json_app l1 l2 : is_json (VArr l1) → is_json (VArr l2) → is_json (VArr (l1 ++ l2)).
Proof. rewrite !is_json_arr. apply Forall_app_2. Qed.

Lemma JSON_stringify_is_json v : is_json v → JSON_stringify v = Json v.
Proof. unfold JSON_stringify, is_json. by intros ->. Qed.

(** ** Computations that only read *)

Lemma readonly_ret {A} (a : A) : readonly (ret a).
Proof. done. Qed.

Lemma readonly_throw {A} e : readonly (throw (A := A) e).
Proof. done. Qed.

Lemma readonly_bind {A B} (c : M A) (k : A → M B) :
  readonly c → (∀ a, readonly (k a)) → readonly (bind c k).
Proof.
  intros Hc Hk st. unfold bind. specialize (Hc st).
  destruct (c st) as [[a|e] st']; simpl in *; subst; [apply Hk|done].
Qed.

Lemma readonly_try_catch {A} (c : M A) (h : error → M A) :
  readonly c → (∀ e, readonly (h e)) → readonly (try_catch c h).
Proof.
  intros Hc Hh st. unfold try_catch. specialize (Hc st).
  destruct (c st) as [[a|e] st']; simpl in *; subst; [done|apply Hh].
Qed.

Lemma readonly_getItem key : readonly (getItem key).
Proof. intros st. unfold getItem. by destruct (blocked _). Qed.

Lemma readonly_JSON_parse t : readonly (JSON_parse t).
Proof. by destruct t. Qed.

Lemma readonly_get v k : readonly (get v k).
Proof. unfold get. by destruct (nullish v). Qed.

Lemma readonly_as_array v : readonly (as_array v).
Proof. by destruct v. Qed.

Lemma readonly_filterM p l : (∀ x, readonly (p x)) → readonly (filterM p l).
Proof.
  intros Hp. induction l as [|x l IH]; simpl; [done|].
  apply readonly_bind; [done|]. intros b.
  apply readonly_bind; [done|]. intros r. done.
Qed.

Lemma readonly_findIndexM p l : (∀ x, readonly (p x)) → readonly (findIndexM p l).
Proof.
  intros Hp. induction l as [|x l IH]; simpl; [done|].
  apply readonly_bind; [done|]. intros [|]; [done|].
  apply readonly_bind; [done|]. done.
Qed.

Lemma readonly_someM p l : (∀ x, readonly (p x)) → readonly (someM p l).
Proof.
  intros Hp. induction l as [|x l IH]; simpl; [done|].
  apply readonly_bind; [done|]. by intros [|].
Qed.

Create HintDb readonly.
#[local] Hint Resolve readonly_ret readonly_throw readonly_getItem
  readonly_JSON_parse readonly_get readonly_as_array : readonly.

Ltac readonly_tac :=
  repeat first
    [ apply readonly_try_catch | apply readonly_bind | apply readonly_filterM
    | apply readonly_findIndexM | apply readonly_someM
    | solve [eauto with readonly]
    | match goal with |- ∀ _, _ => intro end
    | match goal with |- readonly (if ?b then _ else _) => destruct b end
    | match goal with |- readonly (match ?x with _ => _ end) => destruct x end ].

Lemma readonly_loadDraft draftId : readonly (loadDraft draftId).
Proof. unfold loadDraft. readonly_tac. Qed.

Lemma readonly_loadFavorites : readonly loadFavorites.
Proof. unfold loadFavorites. readonly_tac. Qed.

Lemma readonly_loadUserReviews u : readonly (loadUserReviews u).
Proof. unfold loadUserReviews. readonly_tac. Qed.

(** A [try] whose [catch] returns a default never throws. *)
Lemma try_catch_default_total {A} (body : M A) (d : A) st :
  ∃ a st', try_catch body (λ _, ret d) st = (Ok a, st').
Proof.
  unfold try_catch, ret. destruct (body st) as [[a|e] st']; eauto.
Qed.

Lemma readonly_total {A} (c : M A) st :
  readonly c → (∃ a st', c st = (Ok a, st')) → ∃ a, c st = (Ok a, st).
Proof.
  intros Hc (a & st' & Ha). exists a. specialize (Hc st).
  rewrite Ha in Hc. simpl in Hc. by subst.
Qed.

(** ** Reading the store *)

Lemma loadDraft_unreadable st draftId :
  unreadable st (draft_key draftId) → loadDraft draftId st = (Ok VNull, st).
Proof.
  unfold loadDraft, try_catch, bind, getItem.
  intros [Hb|[s Hs]]; [by rewrite Hb|].
  destruct (blocked (storage st)); [done|]. rewrite Hs. simpl.
  by destruct (String.eqb s "").
Qed.

Lemma loadFavorites_unreadable st :
  unreadable st FAVORITES_KEY → loadFavorites st = (Ok (VArr []), st).
Proof.
  unfold loadFavorites, try_catch, bind, getItem.
  intros [Hb|[s Hs]]; [by rewrite Hb|].
  destruct (blocked (storage st)); [done|]. rewrite Hs. simpl.
  by destruct (String.eqb s "").
Qed.

Lemma loadUserReviews_unreadable st u :
  unreadable st REVIEWS_KEY → loadUserReviews u st = (Ok (VArr []), st).
Proof.
  unfold loadUserReviews, try_catch, bind, getItem.
  intros [Hb|[s Hs]]; [by rewrite Hb|].
  destruct (blocked (storage st)); [done|]. rewrite Hs. simpl.
  by destruct (String.eqb s "").
Qed.

Lemma loadUserReviews_array st u :
  ∃ l, loadUserReviews u st = (Ok (VArr l), st).
Proof.
  pose proof (readonly_loadUserReviews u st) as Hro. revert Hro.
  unfold loadUserReviews, try_catch.
  match goal with |- context [match ?b st with _ => _ end] => destruct (b st) as [[a|e] st'] eqn:E end;
    simpl; intros ->; [|by eexists].
  unfold bind in E.
  repeat match type of E with
         | context [match ?c with _ => _ end] => destruct c eqn:?; simplify_eq
         end.
  all: unfold ret in *; simplify_eq; by eexists.
Qed.

(** C6. Reading the store never raises. For every state of the storage,
    [loadDraft], [loadFavorites] and [loadUserReviews] return a value and
    leave the state as it was; when the content under the key is malformed
    or the storage cannot be accessed, the value is the default: [null] for
    a draft, the empty sequence for favourites and for reviews. *)
Theorem store_reads_never_raise (st : state) (draftId : string) (userIdentifier : value) :
  (∃ v, loadDraft draftId st = (Ok v, st)) ∧
  (∃ v, loadFavorites st = (Ok v, st)) ∧
  (∃ l, loadUserReviews userIdentifier st = (Ok (VArr l), st)) ∧
  (unreadable st (draft_key draftId) → loadDraft draftId st = (Ok VNull, st)) ∧
  (unreadable st FAVORITES_KEY → loadFavorites st = (Ok (VArr []), st)) ∧
  (unreadable st REVIEWS_KEY →
     loadUserReviews userIdentifier st = (Ok (VArr []), st)).
Proof.
  split_and!.
  - apply readonly_total; [apply readonly_loadDraft|apply try_catch_default_total].
  - apply readonly_total; [apply readonly_loadFavorites|apply try_catch_default_total].
  - apply loadUserReviews_array.
  - apply loadDraft_unreadable.
  - apply loadFavorites_unreadable.
  - apply loadUserReviews_unreadable.
Qed.

Lemma store_reads_never_raise_witness :
  loadDraft "create" corrupt_state = (Ok VNull, corrupt_state) ∧
  loadFavorites corrupt_state = (Ok (VArr []), corrupt_state) ∧
  loadUserReviews (VStr "user-1") corrupt_state = (Ok (VArr []), corrupt_state).
Proof.
  destruct (store_reads_never_raise corrupt_state "create" (VStr "user-1"))
    as (_ & _ & _ & Hdraft & Hfav & Hrev).
  split_and!; [apply Hdraft|apply Hfav|apply Hrev];
    right; eexists; vm_compute; reflexivity.
Defined.

(** ** The two on-disk shapes of the favourites *)

Lemma loadFavorites_array st l :
  blocked (storage st) = false →
  items (storage st) !! FAVORITES_KEY = Some (Json (VArr l)) →
  loadFavorites st = (Ok (VArr l), st).
Proof.
  intros Hb Hl. unfold loadFavorites, try_catch, bind, getItem.
  by rewrite Hb, Hl.
Qed.

Lemma loadFavorites_items st (o : gmap string value) s :
  blocked (storage st) = false →
  items (storage st) !! FAVORITES_KEY = Some (Json (VObj o)) →
  o !! "items" = Some (VArr s) →
  loadFavorites st = (Ok (VArr s), st).
Proof.
  intros Hb Ho Hs. unfold loadFavorites, try_catch, bind, getItem.
  rewrite Hb, Ho. simpl. unfold opt_prop. simpl. by rewrite Hs.
Qed.

Lemma loadFavorites_absent st :
  blocked (storage st) = false →
  items (storage st) !! FAVORITES_KEY = None →
  loadFavorites st = (Ok (VArr []), st).
Proof.
  intros Hb Hl. unfold loadFavorites, try_catch, bind, getItem.
  by rewrite Hb, Hl.
Qed.

(** C7. [loadFavorites] normalizes both on-disk shapes: a stored bare
    sequence is returned unchanged, and of a stored object [{items: s}] the
    sequence [s] is returned. *)
Theorem loadFavorites_normalizes_shapes (st : state) :
  blocked (storage st) = false →
  (∀ l, items (storage st) !! FAVORITES_KEY = Some (Json (VArr l)) →
        loadFavorites st = (Ok (VArr l), st)) ∧
  (∀ (o : gmap string value) s,
        items (storage st) !! FAVORITES_KEY = Some (Json (VObj o)) →
        o !! "items" = Some (VArr s) →
        loadFavorites st = (Ok (VArr s), st)).
Proof.
  intros Hb. split.
  - intros l. by apply loadFavorites_array.
  - intros o s. by apply loadFavorites_items.
Qed.

(** The stored shape [{items: [{id: "r2"}]}] is read back as
    [[{id: "r2"}]]. *)
Lemma loadFavorites_normalizes_shapes_witness :
  loadFavorites legacy_state =
    (Ok (VArr [VObj {[ "id" := VStr "r2" ]}]), legacy_state).
Proof.
  apply (proj2 (loadFavorites_normalizes_shapes legacy_state eq_refl)
           {[ "items" := VArr [VObj {[ "id" := VStr "r2" ]}] ]});
    vm_compute; reflexivity.
Defined.

(** ** Running computations *)

Lemma getItem_ok st key :
  blocked (storage st) = false → getItem key st = (Ok (items (storage st) !! key), st).
Proof. intros Hb. unfold getItem. by rewrite Hb. Qed.

Lemma setItem_ok st key t :
  blocked (storage st) = false → full (storage st) = false →
  setItem key t st = (Ok tt, put st key t).
Proof. intros Hb Hf. unfold setItem. by rewrite Hb, Hf. Qed.

Lemma bind_ok {A B} (c : M A) (k : A → M B) st a st' :
  c st = (Ok a, st') → bind c k st = k a st'.
Proof. unfold bind. by intros ->. Qed.

Lemma bind_thrown {A B} (c : M A) (k : A → M B) st e st' :
  c st = (Throw e, st') → bind c k st = (Throw e, st').
Proof. unfold bind. by intros ->. Qed.

Lemma bind_ret {A B} (a : A) (k : A → M B) st : bind (ret a) k st = k a st.
Proof. done. Qed.

Lemma bind_throw {A B} e (k : A → M B) st : bind (throw e) k st = (Throw e, st).
Proof. done. Qed.

Lemma bind_bind {A B C} (c : M A) (f : A → M B) (g : B → M C) st :
  bind (bind c f) g st = bind c (λ a, bind (f a) g) st.
Proof. unfold bind. by destruct (c st) as [[a|e] st']. Qed.

Lemma bind_Date_now `{Platform} {B} (k : Z → M B) st :
  bind Date_now k st = k (clock (ticks st)) (tick st).
Proof. done. Qed.

Lemma bind_Math_random `{Platform} {B} (k : string → M B) st :
  bind Math_random k st = k (random (draws st)) (drawn st).
Proof. done. Qed.

Lemma bind_get {B} v key (k : value → M B) st :
  nullish v = false → bind (get v key) k st = k (prop v key) st.
Proof. intros Hv. unfold bind, get. by rewrite Hv. Qed.

Lemma bind_get_nullish {B} v key (k : value → M B) st :
  nullish v = true → bind (get v key) k st = (Throw TypeError, st).
Proof. intros Hv. unfold bind, get. by rewrite Hv. Qed.

Lemma bind_as_array {B} l (k : list value → M B) st :
  bind (as_array (VArr l)) k st = k l st.
Proof. done. Qed.

Lemma bind_getItem {B} key (k : option text → M B) st :
  blocked (storage st) = false →
  bind (getItem key) k st = k (items (storage st) !! key) st.
Proof. intros Hb. unfold bind. by rewrite getItem_ok. Qed.

Lemma bind_setItem {B} key t (k : unit → M B) st :
  blocked (storage st) = false → full (storage st) = false →
  bind (setItem key t) k st = k tt (put st key t).
Proof. intros Hb Hf. unfold bind. by rewrite setItem_ok. Qed.

Lemma bind_JSON_parse {B} v (k : value → M B) st :
  bind (JSON_parse (Json v)) k st = k v st.
Proof. done. Qed.

(** One step of a computation whose head is a primitive that succeeds. *)
Ltac mstep :=
  first
    [ rewrite bind_ret | rewrite bind_bind | rewrite bind_Date_now
    | rewrite bind_Math_random | rewrite bind_as_array | rewrite bind_JSON_parse
    | rewrite bind_get by done
    | rewrite bind_getItem by done
    | rewrite bind_setItem by done ];
  cbv beta match.

(** ** Drafts *)

Lemma append_neq_self (s t : string) : t ≠ "" → s +:+ t ≠ s.
Proof.
  intros Ht. induction s as [|c s IH]; simpl; [done|].
  intros Heq. injection Heq as Heq. by apply IH.
Qed.

(** What [saveDraft] stores, and where. *)
Lemma saveDraft_ok `{Platform} st draftData draftId :
  blocked (storage st) = false → full (storage st) = false →
  ∃ st1,
    saveDraft draftData draftId st = (Ok true, st1) ∧
    blocked (storage st1) = false ∧
    items (storage st1) !! draft_key draftId =
      Some (JSON_stringify
              (object (spread draftData)
                 [("savedAt", VStr (toISOString (clock (ticks st))))])).
Proof.
  intros Hb Hf. unfold saveDraft, try_catch, bind, Date_now. simpl.
  rewrite setItem_ok by done.
  destruct (negb (String.eqb draftId "user_profile")
            && negb (String.eqb draftId FAVORITES_KEY)).
  - rewrite setItem_ok by done. eexists. split_and!; [done..|]. simpl.
    rewrite lookup_insert_ne; [by rewrite lookup_insert_eq|].
    apply append_neq_self. done.
  - eexists. split_and!; [done..|]. simpl. by rewrite lookup_insert_eq.
Qed.

Lemma loadDraft_json st draftId v :
  blocked (storage st) = false →
  items (storage st) !! draft_key draftId = Some (Json v) →
  loadDraft draftId st = (Ok v, st).
Proof.
  intros Hb Hv. unfold loadDraft, try_catch, bind. rewrite getItem_ok by done.
  by rewrite Hv.
Qed.

(** The own properties of a JSON-serializable value are JSON-serializable. *)
Lemma is_json_indexed l :
  Forall is_json l → map_Forall (λ _, is_json) (indexed l).
Proof.
  intros Hl k x Hk. unfold indexed in Hk.
  apply elem_of_list_to_map_2 in Hk.
  apply elem_of_lookup_imap in Hk as (i & y & Heq & Hy). simplify_eq.
  eapply (proj1 (Forall_forall _ _) Hl), list_elem_of_lookup_2, Hy.
Qed.

Lemma is_json_spread v : is_json v → map_Forall (λ _, is_json) (spread v).
Proof.
  destruct v; simpl; try (intros _; apply map_Forall_empty).
  - intros _. apply is_json_indexed. unfold chars.
    apply Forall_fmap, Forall_forall. by intros c _.
  - intros Hl. by apply is_json_indexed, is_json_arr.
  - by intros Ho%is_json_obj.
Qed.

(** C2, as the code has it. With a working storage, [saveDraft(v, key)]
    followed by [loadDraft(key)] returns the object [{...v, savedAt: t}],
    where [t] is the time of the save in ISO form: the own properties of
    the JSON-serializable [v], and the property [savedAt], which [v] need
    not have. For an object [v] the result equals [v] on every property
    other than [savedAt]. *)
Theorem saveDraft_loadDraft_adds_savedAt `{Platform}
    (st : state) (draftData : value) (draftId : string) :
  blocked (storage st) = false → full (storage st) = false →
  is_json draftData →
  ∃ st1 loaded,
    saveDraft draftData draftId st = (Ok true, st1) ∧
    loadDraft draftId st1 = (Ok loaded, st1) ∧
    loaded = VObj (<["savedAt" := VStr (toISOString (clock (ticks st)))]>
                     (spread draftData)) ∧
    (∀ (o : gmap string value) k,
        draftData = VObj o → k ≠ "savedAt" → prop loaded k = prop draftData k).
Proof.
  intros Hb Hf Hjson%is_json_spread.
  destruct (saveDraft_ok st draftData draftId Hb Hf) as (st1 & Hsave & Hb1 & Hitem).
  exists st1. eexists. split_and!; [done| |done|].
  - apply loadDraft_json; [done|]. rewrite Hitem.
    rewrite JSON_stringify_is_json; [done|].
    apply is_json_obj. simpl. by apply map_Forall_insert_2.
  - intros o k -> Hk. simpl. by rewrite lookup_insert_ne.
Qed.

Lemma saveDraft_loadDraft_adds_savedAt_witness :
  ∃ st1,
    saveDraft (H := offline_platform) soto_draft "create" empty_state = (Ok true, st1) ∧
    loadDraft "create" st1 =
      (Ok (VObj {[ "savedAt" := VStr "2023-11-14T22:13:20.000Z";
                   "name" := VStr "Soto" ]}), st1).
Proof.
  destruct (saveDraft_loadDraft_adds_savedAt (H := offline_platform)
              empty_state soto_draft "create" eq_refl eq_refl)
    as (st1 & loaded & Hsave & Hload & -> & _).
  - vm_compute. reflexivity.
  - exists st1. split; [exact Hsave|exact Hload].
Defined.

(** C2, as stated, fails: the draft read back is not the draft saved. *)
Lemma saveDraft_loadDraft_not_identity :
  let saved := saveDraft (H := offline_platform) soto_draft "create" empty_state in
  let loaded := loadDraft "create" saved.2 in
  saved.1 = Ok true ∧
  loaded.1 = Ok (VObj {[ "savedAt" := VStr "2023-11-14T22:13:20.000Z";
                         "name" := VStr "Soto" ]}) ∧
  loaded.1 ≠ Ok soto_draft.
Proof.
  split_and!; [vm_compute; reflexivity..|].
  intros Heq. vm_compute in Heq. discriminate Heq.
Qed.

(** ** Favourites *)

(** *** Array callbacks that read one property *)

Lemma on_prop_ok k (f : value → bool) x st :
  nullish x = false → (v <- get x k ;; ret (f v)) st = (Ok (f (prop x k)), st).
Proof. intros Hx. unfold bind, get. by rewrite Hx. Qed.


Lemma filterM_cons p x l st :
  filterM p (x :: l) st =
    match p x st with
    | (Ok b, st') =>
        match filterM p l st' with
        | (Ok r, st'') => (Ok (if b then x :: r else r), st'')
        | (Throw e, st'') => (Throw e, st'')
        end
    | (Throw e, st') => (Throw e, st')
    end.
Proof.
  simpl. unfold bind. destruct (p x st) as [[b|e] st']; [|done].
  by destruct (filterM p l st') as [[r|e] st''].
Qed.

Lemma findIndexM_cons p x l st :
  findIndexM p (x :: l) st =
    match p x st with
    | (Ok true, st') => (Ok (Some 0%nat), st')
    | (Ok false, st') =>
        match findIndexM p l st' with
        | (Ok r, st'') => (Ok (S <$> r), st'')
        | (Throw e, st'') => (Throw e, st'')
        end
    | (Throw e, st') => (Throw e, st')
    end.
Proof.
  simpl. unfold bind. destruct (p x st) as [[[|]|e] st']; [done| |done].
  by destruct (findIndexM p l st') as [[r|e] st''].
Qed.

Lemma someM_cons p x l st :
  someM p (x :: l) st =
    match p x st with
    | (Ok true, st') => (Ok true, st')
    | (Ok false, st') => someM p l st'
    | (Throw e, st') => (Throw e, st')
    end.
Proof. simpl. unfold bind. by destruct (p x st) as [[[|]|e] st']. Qed.

Lemma filterM_on_prop k (f : value → bool) l st :
  Forall (λ x, nullish x = false) l →
  filterM (λ x, v <- get x k ;; ret (f v)) l st =
    (Ok (List.filter (λ x, f (prop x k)) l), st).
Proof.
  induction 1 as [|x l Hx _ IH]; [done|].
  rewrite filterM_cons, on_prop_ok, IH by done. done.
Qed.

Lemma findIndexM_on_prop_none k (f : value → bool) l st :
  Forall (λ x, nullish x = false ∧ f (prop x k) = false) l →
  findIndexM (λ x, v <- get x k ;; ret (f v)) l st = (Ok None, st).
Proof.
  induction 1 as [|x l [Hx Hf] _ IH]; [done|].
  rewrite findIndexM_cons, on_prop_ok, Hf, IH by done. done.
Qed.


Lemma someM_on_prop k (f : value → bool) l st :
  Forall (λ x, nullish x = false) l →
  someM (λ x, v <- get x k ;; ret (f v)) l st =
    (Ok (existsb (λ x, f (prop x k)) l), st).
Proof.
  induction 1 as [|x l Hx _ IH]; [done|].
  rewrite someM_cons, on_prop_ok by done. simpl.
  by destruct (f (prop x k)).
Qed.

(** *** What [addToFavorites] does *)


(** No entry has the identifier of the recipe: the new entry is appended
    and written. *)
Lemma addToFavorites_fresh `{Platform} st recipe l :
  working st →
  loadFavorites st = (Ok (VArr l), st) →
  nullish recipe = false →
  Forall (λ fav, nullish fav = false ∧ same_id (prop recipe "id") fav = false) l →
  let rid := prop recipe "id" in
  let id := if truthy rid then rid else VNum (clock (ticks st)) in
  let added := clock (if truthy rid then ticks st else S (ticks st)) in
  ∃ st1,
    addToFavorites recipe st = (Ok true, st1) ∧
    working st1 ∧
    ticks st1 = S (if truthy rid then ticks st else S (ticks st)) ∧
    items (storage st1) =
      <[FAVORITES_KEY := JSON_stringify (VArr (l ++ [favoriteRecipe recipe id added]))]>
        (items (storage st)).
Proof.
  intros [Hb Hf] Hload Hrecipe Hl. simpl.
  unfold addToFavorites, try_catch. rewrite (bind_ok _ _ _ _ _ Hload). cbv beta.
  mstep. destruct (truthy (prop recipe "id")); repeat mstep.
  all: erewrite bind_ok by (by apply findIndexM_on_prop_none).
  all: cbv beta match; repeat mstep.
  all: eexists; split_and!; done.
Qed.

(** *** What [removeFromFavorites] does *)

Lemma Forall_list_filter {A} (P : A → Prop) (f : A → bool) l :
  Forall P l → Forall P (List.filter f l).
Proof.
  induction 1 as [|x l Hx _ IH]; simpl; [done|].
  destruct (f x); [by constructor|done].
Qed.

Lemma list_filter_all {A} (f : A → bool) l :
  Forall (λ x, f x = true) l → List.filter f l = l.
Proof. induction 1 as [|x l Hx _ IH]; simpl; [done|]. by rewrite Hx, IH. Qed.

Lemma list_filter_idem {A} (f : A → bool) l :
  List.filter f (List.filter f l) = List.filter f l.
Proof.
  induction l as [|x l IH]; simpl; [done|].
  destruct (f x) eqn:E; simpl; [by rewrite E, IH|done].
Qed.

Lemma list_filter_nil_Forall {A} (f : A → bool) l :
  List.filter f l = [] → Forall (λ x, f x = false) l.
Proof.
  induction l as [|x l IH]; simpl; [done|].
  destruct (f x) eqn:E; [done|]. intros Hl. constructor; auto.
Qed.

(** The favourites read from a storage that holds the JSON text of [l]. *)
Lemma loadFavorites_put st l :
  blocked (storage st) = false → is_json (VArr l) →
  loadFavorites (put st FAVORITES_KEY (JSON_stringify (VArr l))) =
    (Ok (VArr l), put st FAVORITES_KEY (JSON_stringify (VArr l))).
Proof.
  intros Hb Hl. rewrite JSON_stringify_is_json by done.
  apply loadFavorites_array; [done|]. simpl. by rewrite lookup_insert_eq.
Qed.

(** [loadFavorites] always returns, and looks at the storage only. *)
Lemma loadFavorites_run st :
  loadFavorites st = (Ok (favorites_in (storage st)), st).
Proof.
  unfold loadFavorites, favorites_in, try_catch, bind, getItem.
  destruct (blocked (storage st)); [done|].
  destruct (items (storage st) !! FAVORITES_KEY) as [[j|s]|]; simpl; [|by destruct (String.eqb s "")|done].
  by destruct (isArray j).
Qed.


Lemma favorites_are_json st l : favorites_are st l → is_json (VArr l).
Proof.
  intros [_ Hl]. apply is_json_arr. eapply Forall_impl; [exact Hl|]. by intros x [_ ?].
Qed.

Lemma favorites_are_not_null st l :
  favorites_are st l → Forall (λ fav, nullish fav = false) l.
Proof. intros [_ Hl]. eapply Forall_impl; [exact Hl|]. by intros x [? _]. Qed.

Lemma removeFromFavorites_ok st recipeId l :
  working st →
  loadFavorites st = (Ok (VArr l), st) →
  Forall (λ fav, nullish fav = false) l →
  removeFromFavorites recipeId st =
    (Ok true,
     put st FAVORITES_KEY
       (JSON_stringify (VArr (List.filter (λ fav, negb (same_id recipeId fav)) l)))).
Proof.
  intros [Hb Hf] Hload Hl.
  unfold removeFromFavorites, try_catch. rewrite (bind_ok _ _ _ _ _ Hload). cbv beta.
  mstep. erewrite bind_ok; [|by apply filterM_on_prop]. cbv beta.
  by mstep.
Qed.

Lemma put_put st key t : put (put st key t) key t = put st key t.
Proof.
  unfold put, with_storage, with_items. simpl. by rewrite insert_insert_eq.
Qed.


(** C9. [removeFromFavorites] is idempotent. With a working storage whose
    favourites are the entries [l], it filters the entries with the given
    identifier out, writes the rest and returns [true]; when no entry has
    the identifier, the stored entries are the same afterwards; and a second
    removal of the same identifier returns [true] again and changes
    nothing. *)
Theorem removeFromFavorites_idempotent (st : state) (recipeId : value) (l : list value) :
  working st → favorites_are st l →
  ∃ st1,
    removeFromFavorites recipeId st = (Ok true, st1) ∧
    favorites_are st1 (List.filter (λ fav, negb (same_id recipeId fav)) l) ∧
    (entries_with recipeId l = [] → favorites_are st1 l) ∧
    removeFromFavorites recipeId st1 = (Ok true, st1).
Proof.
  intros Hw Hfav. pose proof Hw as [Hb Hf].
  pose proof (favorites_are_not_null _ _ Hfav) as Hnn.
  destruct Hfav as [Hload Hl].
  remember (List.filter (λ fav, negb (same_id recipeId fav)) l) as kept eqn:Hk.
  assert (Hkept : Forall (λ fav, nullish fav = false ∧ is_json fav) kept)
    by (subst kept; by apply Forall_list_filter).
  assert (Hjson : is_json (VArr kept)).
  { apply is_json_arr. eapply Forall_impl; [exact Hkept|]. by intros x [_ ?]. }
  assert (Hfav1 : favorites_are (put st FAVORITES_KEY (JSON_stringify (VArr kept))) kept).
  { split; [by apply loadFavorites_put|done]. }
  exists (put st FAVORITES_KEY (JSON_stringify (VArr kept))). split_and!.
  - rewrite Hk. by apply removeFromFavorites_ok.
  - done.
  - intros Hnone. assert (Heq : kept = l); [|by rewrite <- Heq].
    subst kept. apply list_filter_all. apply list_filter_nil_Forall in Hnone.
    eapply Forall_impl; [exact Hnone|]. simpl. by intros x ->.
  - rewrite (removeFromFavorites_ok _ recipeId kept); [| done | apply Hfav1 |].
    + subst kept. by rewrite list_filter_idem, put_put.
    + eapply Forall_impl; [exact Hkept|]. by intros x [? _].
Qed.

Lemma two_favorites_are :
  favorites_are two_favorites_state [soto_entry; rendang_entry].
Proof.
  split; [reflexivity|].
  repeat constructor; vm_compute; reflexivity.
Defined.

(** Removing "r1" leaves the entry of "r2"; removing the absent "r9" leaves
    both entries. *)
Lemma removeFromFavorites_idempotent_witness :
  (∃ st1, removeFromFavorites (VStr "r1") two_favorites_state = (Ok true, st1) ∧
          favorites_are st1 [rendang_entry]) ∧
  (∃ st1, removeFromFavorites (VStr "r9") two_favorites_state = (Ok true, st1) ∧
          favorites_are st1 [soto_entry; rendang_entry]).
Proof.
  split.
  - destruct (removeFromFavorites_idempotent two_favorites_state (VStr "r1")
                [soto_entry; rendang_entry] (conj eq_refl eq_refl) two_favorites_are)
      as (st1 & Hrun & Hfav & _ & _).
    exists st1. split; [exact Hrun|exact Hfav].
  - destruct (removeFromFavorites_idempotent two_favorites_state (VStr "r9")
                [soto_entry; rendang_entry] (conj eq_refl eq_refl) two_favorites_are)
      as (st1 & Hrun & _ & Hsame & _).
    exists st1. split; [exact Hrun|apply Hsame; reflexivity].
Defined.

(** *** The entry that is written *)

Lemma is_json_stored v : is_json (stored v).
Proof.
  unfold stored. destruct (jsonify v) as [j|] eqn:E; simpl; [|done].
  by eapply jsonify_is_json.
Qed.

Lemma JSON_stringify_snoc l e :
  is_json (VArr l) →
  JSON_stringify (VArr (l ++ [e])) = Json (VArr (l ++ [stored e])).
Proof.
  intros Hl. unfold JSON_stringify. simpl. rewrite map_app. simpl.
  do 3 f_equal. apply is_json_arr in Hl.
  induction Hl as [|x l Hx _ IH]; [done|]. simpl. by rewrite IH, is_json_default.
Qed.

Lemma plain_json_jsonify v : plain_json v = true → jsonify v = Some v.
Proof. by destruct v. Qed.



Lemma favoriteRecipe_id recipe id added :
  prop (favoriteRecipe recipe id added) "id" = id.
Proof.
  unfold favoriteRecipe, object, prop. simpl.
  by repeat (rewrite lookup_insert_ne by done); rewrite lookup_insert_eq.
Qed.

Lemma stored_favoriteRecipe_id recipe id added :
  plain_json id = true →
  prop (stored (favoriteRecipe recipe id added)) "id" = id.
Proof.
  intros Hid. pose proof (favoriteRecipe_id recipe id added) as Hprop.
  unfold favoriteRecipe, object in *. unfold stored. simpl in *.
  rewrite lookup_omap.
  match goal with
  | H : default VUndef ?o = id |- _ => destruct o as [x|] eqn:E; simpl in H; subst
  end.
  - simpl. by rewrite plain_json_jsonify.
  - done.
Qed.

Lemma stored_favoriteRecipe_not_null recipe id added :
  nullish (stored (favoriteRecipe recipe id added)) = false.
Proof. done. Qed.

(** *** Strict equality on identifiers *)



Lemma strict_eq_truthy a b : strict_eq a b = true → truthy a = truthy b.
Proof.
  destruct a, b; simpl; try done.
  - by destruct b, b0.
  - by intros ->%Z.eqb_eq.
  - by intros ->%String.eqb_eq.
Qed.






(** *** Adding *)

Lemma addToFavorites_appends `{Platform} st recipe l :
  working st → favorites_are st l → nullish recipe = false →
  Forall (λ fav, same_id (prop recipe "id") fav = false) l →
  let rid := prop recipe "id" in
  let id := if truthy rid then rid else VNum (clock (ticks st)) in
  let added := clock (if truthy rid then ticks st else S (ticks st)) in
  ∃ st1,
    addToFavorites recipe st = (Ok true, st1) ∧
    working st1 ∧
    ticks st1 = S (if truthy rid then ticks st else S (ticks st)) ∧
    favorites_are st1 (l ++ [stored (favoriteRecipe recipe id added)]).
Proof.
  intros Hw Hfav Hrecipe Hnone. simpl.
  pose proof (favorites_are_json _ _ Hfav) as Hjson.
  pose proof (favorites_are_not_null _ _ Hfav) as Hnn.
  destruct Hfav as [Hload Hl].
  destruct (addToFavorites_fresh st recipe l Hw Hload Hrecipe)
    as (st1 & Hrun & Hw1 & Hticks & Hitems).
  { apply Forall_and. by split. }
  exists st1. split_and!; [done..|]. split.
  - apply loadFavorites_array; [apply Hw1|].
    by rewrite Hitems, lookup_insert_eq, JSON_stringify_snoc.
  - apply Forall_app_2; [done|]. constructor; [|constructor].
    split; [done|apply is_json_stored].
Qed.

Lemma falsy_id_no_match rid fav :
  truthy rid = false → truthy (prop fav "id") = true → same_id rid fav = false.
Proof.
  intros Hrid Hfav. unfold same_id.
  destruct (strict_eq (prop fav "id") rid) eqn:E; [|done].
  apply strict_eq_truthy in E. congruence.
Qed.

(** C10, as the code has it. For a recipe whose identifier is absent or
    falsy, with a working storage whose favourites are an array of entries
    other than [null] ([favorites_are]), none of which has an identifier
    strictly equal to the recipe's own (none has when every stored entry
    carries a truthy identifier), and a clock that does not read 0,
    [addToFavorites] returns [true] and appends an entry whose identifier
    is the clock reading; a second call with the same recipe appends a
    second entry. *)
Theorem addToFavorites_without_identifier `{Platform}
    (st : state) (recipe : value) (l : list value) :
  working st → favorites_are st l →
  nullish recipe = false → truthy (prop recipe "id") = false →
  Forall (λ fav, same_id (prop recipe "id") fav = false) l →
  clock (ticks st) ≠ 0 →
  ∃ st1 st2 e1 e2,
    addToFavorites recipe st = (Ok true, st1) ∧
    favorites_are st1 (l ++ [e1]) ∧
    prop e1 "id" = VNum (clock (ticks st)) ∧
    addToFavorites recipe st1 = (Ok true, st2) ∧
    favorites_are st2 (l ++ [e1; e2]) ∧
    prop e2 "id" = VNum (clock (ticks st1)).
Proof.
  intros Hw Hfav Hrecipe Hfalsy Hnone Hclock.
  destruct (addToFavorites_appends st recipe l Hw Hfav Hrecipe Hnone)
    as (st1 & Hrun1 & Hw1 & Hticks1 & Hfav1).
  rewrite Hfalsy in Hticks1, Hfav1.
  set (e1 := stored (favoriteRecipe recipe (VNum (clock (ticks st)))
                       (clock (S (ticks st))))) in *.
  assert (He1 : prop e1 "id" = VNum (clock (ticks st)))
    by by apply stored_favoriteRecipe_id.
  destruct (addToFavorites_appends st1 recipe (l ++ [e1]) Hw1 Hfav1 Hrecipe)
    as (st2 & Hrun2 & Hw2 & Hticks2 & Hfav2).
  { apply Forall_app_2; [done|]. constructor; [|constructor].
    apply falsy_id_no_match; [done|]. rewrite He1. simpl.
    by apply negb_true_iff, Z.eqb_neq. }
  rewrite Hfalsy in Hticks2, Hfav2. rewrite <- (assoc_L (++)) in Hfav2.
  exists st1, st2, e1,
    (stored (favoriteRecipe recipe (VNum (clock (ticks st1))) (clock (S (ticks st1))))).
  split_and!; [done|done|done|done|exact Hfav2|].
  by apply stored_favoriteRecipe_id.
Qed.

Lemma empty_favorites : favorites_are empty_state [].
Proof. split; [reflexivity|constructor]. Defined.

(** From an empty store, adding the recipe without identifier twice stores
    two entries, identified by the two clock readings. *)
Lemma addToFavorites_without_identifier_witness :
  ∃ st1 st2 e1 e2,
    addToFavorites (H := offline_platform) recipe_unnamed empty_state = (Ok true, st1) ∧
    addToFavorites (H := offline_platform) recipe_unnamed st1 = (Ok true, st2) ∧
    favorites_are st2 [e1; e2] ∧
    prop e1 "id" = VNum 1700000000000 ∧
    prop e2 "id" = VNum 1700000000002.
Proof.
  destruct (addToFavorites_without_identifier (H := offline_platform)
              empty_state recipe_unnamed [] (conj eq_refl eq_refl) empty_favorites
              eq_refl eq_refl)
    as (st1 & st2 & e1 & e2 & Hrun1 & Hfav1 & He1 & Hrun2 & Hfav2 & He2).
  - constructor.
  - vm_compute. discriminate.
  - exists st1, st2, e1, e2. split_and!; [exact Hrun1|exact Hrun2|exact Hfav2|exact He1|].
    rewrite He2. 
    assert (Hst1 : st1 = (addToFavorites (H := offline_platform) recipe_unnamed empty_state).2)
      by (by rewrite Hrun1).
    rewrite Hst1. vm_compute. reflexivity.
Defined.

(** C10, as stated, fails: a stored entry without identifier matches the
    absent identifier of the recipe, and nothing is appended. *)
Lemma addToFavorites_without_identifier_rejected :
  let r := addToFavorites (H := offline_platform) recipe_unnamed anonymous_entry_state in
  r.1 = Ok false ∧
  storage r.2 = storage anonymous_entry_state ∧
  (loadFavorites r.2).1 = Ok (VArr [VObj {[ "name" := VStr "Soto" ]}]).
Proof. vm_compute. split_and!; reflexivity. Qed.

(** *** Adding the same recipe twice *)



(** *** The invariant of the favourites *)







(** *** A storage that cannot be written stays as it is *)

Lemma setItem_not_working key t st :
  ¬ working st → ∃ e, setItem key t st = (Throw e, st).
Proof.
  unfold working, setItem. intros Hw.
  destruct (blocked (storage st)); [by eexists|].
  destruct (full (storage st)); [by eexists|]. by destruct Hw.
Qed.

Lemma findIndexM_id_readonly rid l st :
  (findIndexM (λ fav, fid <- get fav "id" ;; ret (strict_eq fid rid)) l st).2 = st.
Proof. apply readonly_findIndexM. intros x. readonly_tac. Qed.

Lemma filterM_id_readonly rid l st :
  (filterM (λ fav, fid <- get fav "id" ;; ret (negb (strict_eq fid rid))) l st).2 = st.
Proof. apply readonly_filterM. intros x. readonly_tac. Qed.

Lemma addToFavorites_not_working `{Platform} st recipe :
  ¬ working st → storage (addToFavorites recipe st).2 = storage st.
Proof.
  intros Hw. unfold addToFavorites, try_catch.
  rewrite (bind_ok _ _ _ _ _ (loadFavorites_run st)). cbv beta.
  destruct (nullish recipe) eqn:Hrecipe; [by rewrite bind_get_nullish|].
  mstep. destruct (truthy (prop recipe "id")); repeat mstep.
  all: destruct (favorites_in (storage st)) as [| | | | | | |l|]; try done.
  all: mstep.
  all: match goal with
       | |- context [bind (findIndexM ?p ?l0) ?k ?s] =>
           pose proof (findIndexM_id_readonly (prop recipe "id") l0 s) as Hro;
           destruct (findIndexM p l0 s) as [[[i|]|e] s'] eqn:E; simpl in Hro; subst s';
           [rewrite (bind_ok _ _ _ _ _ E)|rewrite (bind_ok _ _ _ _ _ E)
           |rewrite (bind_thrown _ _ _ _ _ E)]
       end; try done.
  all: cbv beta match.
  all: match goal with
       | |- context [bind (setItem ?key ?t) ?k ?s] =>
           destruct (setItem_not_working key t s Hw) as [e He];
           rewrite (bind_thrown _ _ _ _ _ He)
       end; done.
Qed.

Lemma removeFromFavorites_not_working st recipeId :
  ¬ working st → storage (removeFromFavorites recipeId st).2 = storage st.
Proof.
  intros Hw. unfold removeFromFavorites, try_catch.
  rewrite (bind_ok _ _ _ _ _ (loadFavorites_run st)). cbv beta.
  destruct (favorites_in (storage st)) as [| | | | | | |l|]; try done.
  mstep.
  match goal with
  | |- context [bind (filterM ?p ?l0) ?k ?s] =>
      pose proof (filterM_id_readonly recipeId l0 s) as Hro;
      destruct (filterM p l0 s) as [[r|e] s'] eqn:E; simpl in Hro; subst s';
      [rewrite (bind_ok _ _ _ _ _ E)|rewrite (bind_thrown _ _ _ _ _ E)]
  end; try done.
  cbv beta.
  match goal with
  | |- context [bind (setItem ?key ?t) ?k ?s] =>
      destruct (setItem_not_working key t s Hw) as [e He];
      rewrite (bind_thrown _ _ _ _ _ He)
  end. done.
Qed.

Lemma working_dec st : working st ∨ ¬ working st.
Proof.
  unfold working. destruct (blocked (storage st)), (full (storage st));
    try (by left); right; by intros [? ?].
Qed.

(** *** Each operation keeps the invariant *)



(** *** Toggling *)

Lemma isRecipeFavorited_run st recipeId :
  ∃ b, isRecipeFavorited recipeId st = (Ok b, st).
Proof.
  apply readonly_total; [|apply try_catch_default_total].
  unfold isRecipeFavorited. readonly_tac.
Qed.

Lemma addToFavorites_total `{Platform} st recipe :
  ∃ b st', addToFavorites recipe st = (Ok b, st').
Proof. apply try_catch_default_total. Qed.

Lemma removeFromFavorites_total st recipeId :
  ∃ b st', removeFromFavorites recipeId st = (Ok b, st').
Proof. apply try_catch_default_total. Qed.

(** A toggle is one removal or one addition, decided by the membership
    test, and returns the new membership. *)
Lemma toggleFavorite_run `{Platform} st recipe :
  nullish recipe = false →
  ∃ b, isRecipeFavorited (prop recipe "id") st = (Ok b, st) ∧
       toggleFavorite recipe st =
         (Ok (VBool (negb b)),
          if b then (removeFromFavorites (prop recipe "id") st).2
          else (addToFavorites recipe st).2).
Proof.
  intros Hrecipe.
  destruct (isRecipeFavorited_run st (prop recipe "id")) as [b Hb].
  exists b. split; [done|].
  unfold toggleFavorite, try_catch. mstep.
  rewrite (bind_ok _ _ _ _ _ Hb). cbv beta. destruct b.
  - mstep. destruct (removeFromFavorites_total st (prop recipe "id")) as (r & st' & Hr).
    by rewrite (bind_ok _ _ _ _ _ Hr), Hr.
  - destruct (addToFavorites_total st recipe) as (r & st' & Hr).
    by rewrite (bind_ok _ _ _ _ _ Hr), Hr.
Qed.






Lemma isRecipeFavorited_ok st recipeId l :
  favorites_are st l →
  isRecipeFavorited recipeId st = (Ok (existsb (same_id recipeId) l), st).
Proof.
  intros Hfav. pose proof (favorites_are_not_null _ _ Hfav) as Hnn.
  unfold isRecipeFavorited, try_catch.
  rewrite (bind_ok _ _ _ _ _ (proj1 Hfav)). cbv beta. mstep.
  by rewrite (someM_on_prop "id" (λ fid, strict_eq fid recipeId)).
Qed.



(** ** Reviews *)

Lemma apiClient_failed `{Platform} st m url body err :
  transport (sent st) {| req_method := m; req_url := url; req_body := body |} = Failed err →
  apiClient m url body st =
    (Throw (Rejection (or_else (opt_prop (opt_prop err "response") "data") err)),
     requested st).
Proof. unfold apiClient. by intros ->. Qed.

Lemma apiClient_fulfilled `{Platform} st m url body response :
  transport (sent st) {| req_method := m; req_url := url; req_body := body |}
    = Fulfilled response →
  apiClient m url body st = (Ok (prop response "data"), requested st).
Proof. unfold apiClient. by intros ->. Qed.

Lemma apiClient_storage `{Platform} st m url body :
  storage (apiClient m url body st).2 = storage st.
Proof. unfold apiClient. by destruct (transport _ _). Qed.

(** *** Update and delete *)

Lemma updateReview_run `{Platform} st reviewId reviewData :
  updateReview reviewId reviewData st =
    apiClient PUT (review_url reviewId) reviewData st.
Proof.
  unfold updateReview, try_catch, bind.
  by destruct (apiClient _ _ _ st) as [[r|e] st'].
Qed.

Lemma deleteReview_run `{Platform} st reviewId :
  deleteReview reviewId st = apiClient DELETE (review_url reviewId) VUndef st.
Proof.
  unfold deleteReview, try_catch, bind.
  by destruct (apiClient _ _ _ st) as [[r|e] st'].
Qed.

(** C8. [updateReview] and [deleteReview] are remote only. When the request
    fails, the rejection reaches the caller as a thrown error; and whatever
    the request does, the local storage is left as it was. *)
Theorem review_update_delete_remote_only `{Platform}
    (st : state) (reviewId reviewData err : value) :
  (transport (sent st)
     {| req_method := PUT; req_url := review_url reviewId; req_body := reviewData |}
     = Failed err →
   updateReview reviewId reviewData st =
     (Throw (Rejection (or_else (opt_prop (opt_prop err "response") "data") err)),
      requested st)) ∧
  (transport (sent st)
     {| req_method := DELETE; req_url := review_url reviewId; req_body := VUndef |}
     = Failed err →
   deleteReview reviewId st =
     (Throw (Rejection (or_else (opt_prop (opt_prop err "response") "data") err)),
      requested st)) ∧
  storage (updateReview reviewId reviewData st).2 = storage st ∧
  storage (deleteReview reviewId st).2 = storage st.
Proof.
  rewrite updateReview_run, deleteReview_run. split_and!.
  - apply apiClient_failed.
  - apply apiClient_failed.
  - apply apiClient_storage.
  - apply apiClient_storage.
Qed.

(** With the server unreachable, both calls throw the transport error. *)
Lemma review_update_delete_remote_only_witness :
  updateReview (H := offline_platform) (VStr "rev-1") sample_review empty_state =
    (Throw (Rejection (VObj {[ "message" := VStr "Network Error" ]})),
     requested empty_state) ∧
  deleteReview (H := offline_platform) (VStr "rev-1") empty_state =
    (Throw (Rejection (VObj {[ "message" := VStr "Network Error" ]})),
     requested empty_state).
Proof.
  destruct (review_update_delete_remote_only (H := offline_platform)
              empty_state (VStr "rev-1") sample_review
              (VObj {[ "message" := VStr "Network Error" ]}))
    as (Hupdate & Hdelete & _ & _).
  split; [apply Hupdate|apply Hdelete]; reflexivity.
Defined.

(** *** The local copy of a review *)










Lemma saveReviewToStorage_storage `{Platform} st recipeId reviewData :
  ∃ v st', saveReviewToStorage recipeId reviewData st = (Ok v, st').
Proof. apply try_catch_default_total. Qed.



Lemma createReview_failed `{Platform} st recipeId reviewData err :
  transport (sent st)
    {| req_method := POST; req_url := reviews_url recipeId; req_body := reviewData |}
    = Failed err →
  createReview recipeId reviewData st =
    (Ok (object ∅ [("success", VBool true); ("data", reviewData);
                   ("offline", VBool true)]),
     (saveReviewToStorage recipeId reviewData (requested st)).2).
Proof.
  intros Hfail. unfold createReview, try_catch.
  rewrite (bind_thrown _ _ _ _ _ (apiClient_failed _ _ _ _ _ Hfail)).
  destruct (saveReviewToStorage_storage (requested st) recipeId reviewData)
    as (v & st' & Hsave).
  by rewrite (bind_ok _ _ _ _ _ Hsave), Hsave.
Qed.

Lemma createReview_fulfilled `{Platform} st recipeId reviewData response :
  transport (sent st)
    {| req_method := POST; req_url := reviews_url recipeId; req_body := reviewData |}
    = Fulfilled response →
  nullish (prop response "data") = false →
  let body := prop response "data" in
  createReview recipeId reviewData st =
    (Ok body,
     if truthy (prop body "success") || truthy (prop body "data")
     then (saveReviewToStorage recipeId reviewData (requested st)).2
     else requested st).
Proof.
  intros Hok Hbody. simpl. unfold createReview, try_catch.
  rewrite (bind_ok _ _ _ _ _ (apiClient_fulfilled _ _ _ _ _ Hok)). cbv beta.
  mstep. destruct (truthy _ || truthy _).
  - destruct (saveReviewToStorage_storage (requested st) recipeId reviewData)
      as (v & st' & Hsave).
    rewrite bind_bind, (bind_ok _ _ _ _ _ Hsave), Hsave. by repeat mstep.
  - by repeat mstep.
Qed.








(** ** Normalizing a recipe *)

Lemma digit_val_nonneg radix c d : digit_val radix c = Some d → 0 ≤ d.
Proof.
  unfold digit_val.
  repeat match goal with
         | |- context [if ?b then _ else _] => destruct b eqn:?
         end; intros; simplify_eq; lia.
Qed.

Lemma digits_nonneg radix s acc m :
  0 ≤ radix → 0 ≤ default 0 acc → digits radix s acc = Some m → 0 ≤ m.
Proof.
  intros Hr. revert acc. induction s as [|c s IH]; simpl; intros acc Hacc Hm.
  - by subst.
  - destruct (digit_val radix c) as [d|] eqn:Hd; [|by subst].
    apply IH in Hm; [done|]. simpl. apply digit_val_nonneg in Hd. nia.
Qed.

Lemma digit_val_below radix c d : digit_val radix c = Some d → d < radix.
Proof.
  unfold digit_val.
  repeat match goal with
         | |- context [if ?b then _ else _] => destruct b eqn:?
         end; intros; simplify_eq; lia.
Qed.

(** A run of [k] digits is below [radix ^ k]. *)
Lemma digits_below radix s acc m :
  1 ≤ radix → 0 ≤ default 0 acc → digits radix s acc = Some m →
  m < (default 0 acc + 1) * radix ^ Z.of_nat (String.length s).
Proof.
  intros Hr. revert acc. induction s as [|c s IH]; intros acc Hacc Hm.
  - simpl in *. subst. simpl. lia.
  - cbn [digits] in Hm. cbn [String.length].
    rewrite Nat2Z.inj_succ, Z.pow_succ_r by lia.
    assert (Hpow : 1 ≤ radix ^ Z.of_nat (String.length s)).
    { apply (Z.pow_le_mono_r radix 0); lia. }
    destruct (digit_val radix c) as [d|] eqn:Hd.
    + pose proof (digit_val_nonneg _ _ _ Hd). pose proof (digit_val_below _ _ _ Hd).
      apply IH in Hm; [|simpl; nia]. simpl in Hm.
      set (a := default 0 acc) in *. set (w := radix ^ Z.of_nat (String.length s)) in *.
      assert (radix * a + d + 1 ≤ radix * (a + 1)) by lia.
      assert ((radix * a + d + 1) * w ≤ radix * (a + 1) * w) by nia.
      lia.
    + subst acc. simpl in *.
      set (w := radix ^ Z.of_nat (String.length s)) in *.
      assert (1 ≤ radix * w) by nia. nia.
Qed.

Lemma skip_ws_length s : (String.length (skip_ws s) ≤ String.length s)%nat.
Proof.
  induction s as [|c s IH]; simpl; [done|]. destruct (is_ws c); simpl; lia.
Qed.

Section Parsing.
Context `{Numerics}.

Lemma number_of_integer_cases m :
  (∃ p, number_of_integer m = VNum p) ∨ (∃ b, number_of_integer m = VInf b).
Proof.
  unfold number_of_integer. destruct (safe_integer m); [left; by eexists|].
  destruct (round_integer m); [left|right]; by eexists.
Qed.

Lemma number_of_integer_safe m :
  Z.abs m < 2 ^ 53 → number_of_integer m = VNum m.
Proof.
  intros Hm. unfold number_of_integer, safe_integer.
  by rewrite (proj2 (Z.leb_le _ _)) by lia.
Qed.

Lemma parseInt_string_cases s :
  parseInt_string s = VNaN ∨
  (∃ p, parseInt_string s = VNum p) ∨ (∃ b, parseInt_string s = VInf b).
Proof.
  unfold parseInt_string.
  destruct (strip_sign _) as [neg s2]. destruct (strip_radix s2) as [radix s3].
  destruct (digits radix s3 None); [right; apply number_of_integer_cases|by left].
Qed.

(** On a text of at most 15 characters [parseInt] is exact: it yields
    [NaN] or a safe integer, negative only when the text starts, after
    white space, with a minus sign. *)
Lemma parseInt_string_short s :
  (String.length s ≤ 15)%nat →
  parseInt_string s = VNaN ∨
  ∃ p, parseInt_string s = VNum p ∧ Z.abs p < 2 ^ 53 ∧
       (p < 0 → ∃ r, skip_ws s = String "-"%char r).
Proof.
  intros Hlen. unfold parseInt_string.
  pose proof (skip_ws_length s) as Hskip.
  destruct (strip_sign (skip_ws s)) as [neg s2] eqn:Hsign.
  destruct (strip_radix s2) as [radix s3] eqn:Hradix.
  destruct (digits radix s3 None) as [m|] eqn:Hm; [right|by left].
  assert (Hs2 : (String.length s2 ≤ String.length (skip_ws s))%nat).
  { unfold strip_sign in Hsign. repeat case_match; simplify_eq; simpl; lia. }
  assert (Hbound : 0 ≤ m < 2 ^ 53).
  { unfold strip_radix in Hradix.
    assert (Hcase : (radix = 16 ∧ (String.length s3 ≤ 13)%nat) ∨
                    (radix = 10 ∧ (String.length s3 ≤ 15)%nat)).
    { repeat case_match; simplify_eq; simpl in *; first [left; split; [done|lia]
                                                        |right; split; [done|lia]]. }
    destruct Hcase as [[-> Hl]|[-> Hl]].
    - pose proof (digits_nonneg 16 s3 None m ltac:(lia) ltac:(simpl; lia) Hm).
      pose proof (digits_below 16 s3 None m ltac:(lia) ltac:(simpl; lia) Hm) as Hlt.
      simpl in Hlt.
      assert (16 ^ Z.of_nat (String.length s3) ≤ 16 ^ 13)
        by (apply Z.pow_le_mono_r; lia).
      change (16 ^ 13) with 4503599627370496 in *.
      change (2 ^ 53) with 9007199254740992. lia.
    - pose proof (digits_nonneg 10 s3 None m ltac:(lia) ltac:(simpl; lia) Hm).
      pose proof (digits_below 10 s3 None m ltac:(lia) ltac:(simpl; lia) Hm) as Hlt.
      simpl in Hlt.
      assert (10 ^ Z.of_nat (String.length s3) ≤ 10 ^ 15)
        by (apply Z.pow_le_mono_r; lia).
      change (10 ^ 15) with 1000000000000000 in *.
      change (2 ^ 53) with 9007199254740992. lia. }
  exists (if neg then - m else m).
  split_and!.
  - apply number_of_integer_safe. destruct neg; lia.
  - destruct neg; lia.
  - intros Hneg. destruct neg; [|lia].
    unfold strip_sign in Hsign. repeat case_match; simplify_eq. by eexists.
Qed.

Lemma parseInt_cases v :
  parseInt v = VNaN ∨ (∃ p, parseInt v = VNum p) ∨ (∃ b, parseInt v = VInf b).
Proof. apply parseInt_string_cases. Qed.

(** [parseInt(v) || d] is what [parsed_number] says. *)
Lemma or_else_parseInt v d :
  0 ≤ d ≤ 1 → parsed_number v (or_else (parseInt v) (VNum d)) d.
Proof.
  intros Hd. split.
  - unfold or_else.
    destruct (parseInt_cases v) as [->|[[p ->]|[b ->]]]; simpl.
    + left. by eexists.
    + destruct (negb (p =? 0)); left; by eexists.
    + right. by eexists.
  - intros Hshort. unfold or_else.
    destruct (parseInt_string_short (to_string v) Hshort)
      as [Hnan|(p & Hp & Hsafe & Hsign)]; fold (parseInt v) in *.
    + rewrite Hnan. simpl. exists d. split_and!; [done| |lia].
      change (2 ^ 53) with 9007199254740992. lia.
    + rewrite Hp. simpl. destruct (p =? 0) eqn:E; simpl.
      * exists d. split_and!; [done| |lia].
        change (2 ^ 53) with 9007199254740992. lia.
      * exists p. split_and!; [done|done|].
        intros Hlt. split; [done|]. apply Hsign.
        apply Z.eqb_neq in E. lia.
Qed.

(** [parseInt(v) || 1] is never falsy. *)
Lemma or_else_parseInt_truthy v : truthy (or_else (parseInt v) (VNum 1)) = true.
Proof.
  unfold or_else. by destruct (truthy (parseInt v)) eqn:E.
Qed.

(** The no-break space is white space: it is skipped by [parseInt] and
    removed by [trim]. *)
Lemma parseInt_after_no_break_space :
  parseInt (VStr (String "160"%char "-5")) = VNum (-5).
Proof. reflexivity. Qed.

Lemma trim_no_break_space :
  trim (String "160"%char ("Soto" +:+ String "160"%char "")) = "Soto".
Proof. reflexivity. Qed.

(** A digit run beyond the safe integers is what the platform rounds it
    to, and the text of a number beyond them is the platform's. *)
Lemma parseInt_beyond_safe :
  parseInt (VStr "9007199254740993") =
    match round_integer 9007199254740993 with
    | Some d => VNum d
    | None => VInf false
    end.
Proof. reflexivity. Qed.

Lemma parseInt_large_number :
  parseInt (VNum (10 ^ 21)) = parseInt_string (number_text (10 ^ 21)).
Proof. reflexivity. Qed.

End Parsing.

Lemma fresh_id_total `{Platform} prefix st :
  ∃ v st', fresh_id prefix st = (Ok v, st').
Proof. unfold fresh_id. repeat mstep. by eexists _, _. Qed.

Lemma normalizeIngredient_total `{Platform} x i st :
  nullish x = false → ∃ y st', normalizeIngredient x i st = (Ok y, st').
Proof.
  intros Hx. unfold normalizeIngredient. mstep.
  destruct (truthy (prop x "id")).
  - repeat mstep. by eexists _, _.
  - destruct (fresh_id_total "ingredient" st) as (v & st' & Hv).
    rewrite (bind_ok _ _ _ _ _ Hv). by eexists _, _.
Qed.

Lemma normalizeStep_total `{Platform} x i st :
  nullish x = false → ∃ y st', normalizeStep x i st = (Ok y, st').
Proof.
  intros Hx. unfold normalizeStep. mstep.
  destruct (truthy (prop x "id")).
  - repeat mstep. by eexists _, _.
  - destruct (fresh_id_total "step" st) as (v & st' & Hv).
    rewrite (bind_ok _ _ _ _ _ Hv). by eexists _, _.
Qed.

Lemma mapiM_total (f : value → nat → M value) l :
  (∀ x i st, nullish x = false → ∃ y st', f x i st = (Ok y, st')) →
  Forall (λ x, nullish x = false) l →
  ∀ i st, ∃ r st', mapiM f i l st = (Ok r, st').
Proof.
  intros Hf. induction 1 as [|x l Hx _ IH]; intros i st; simpl.
  - by eexists _, _.
  - destruct (Hf x i st Hx) as (y & st1 & Hy). rewrite (bind_ok _ _ _ _ _ Hy).
    destruct (IH (S i) st1) as (r & st2 & Hr). rewrite (bind_ok _ _ _ _ _ Hr).
    by eexists _, _.
Qed.

(** The [Array.isArray(x) ? x.map(f) : []] of the normalizer yields an
    array whenever [f] returns on every element. *)
Lemma normalized_list_total (f : value → nat → M value) v st :
  (∀ x i st, nullish x = false → ∃ y st', f x i st = (Ok y, st')) →
  elements_present v →
  ∃ r st',
    match v with
    | VArr l => (r <- mapiM f 0 l ;; ret (VArr r))
    | _ => ret (VArr [])
    end st = (Ok (VArr r), st').
Proof.
  intros Hf Hv. destruct v; try by eexists _, _.
  destruct (mapiM_total f l Hf Hv 0%nat st) as (r & st' & Hr).
  rewrite (bind_ok _ _ _ _ _ Hr). by eexists _, _.
Qed.

Ltac read_field :=
  unfold object, prop; simpl;
  repeat (rewrite lookup_insert_ne by done); rewrite lookup_insert_eq; simpl.

(** What [normalizeRecipeData] guarantees. For every recipe object whose
    [ingredients] and [steps], when they are arrays, hold no [null] or
    [undefined] element, it returns a record in which [ingredients] and
    [steps] are arrays; [prep_time], [cook_time] and [servings] are numbers
    other than [NaN] (an integer, or an infinity for a digit run that the
    platform rounds to one), [servings] is never 0, and where the text of
    the recipe's field has at most 15 characters the number is a safe
    integer that is negative (below 1 for [servings]) only when the field
    itself parses to that negative integer; and [name] is truthy, with the
    default when the recipe has no truthy name. *)
Theorem normalizeRecipeData_shape `{Platform} (st : state) (o : gmap string value) :
  elements_present (prop (VObj o) "ingredients") →
  elements_present (prop (VObj o) "steps") →
  ∃ out st',
    normalizeRecipeData (VObj o) st = (Ok out, st') ∧
    isArray (prop out "ingredients") = true ∧
    isArray (prop out "steps") = true ∧
    parsed_number (prop (VObj o) "prep_time") (prop out "prep_time") 0 ∧
    parsed_number (prop (VObj o) "cook_time") (prop out "cook_time") 0 ∧
    parsed_number (prop (VObj o) "servings") (prop out "servings") 1 ∧
    truthy (prop out "servings") = true ∧
    truthy (prop out "name") = true ∧
    (truthy (prop (VObj o) "name") = false →
       prop out "name" = VStr "Untitled Recipe").
Proof.
  intros Hing Hsteps. unfold normalizeRecipeData.
  change (negb (truthy (VObj o))) with false. cbv match.
  destruct (normalized_list_total normalizeIngredient _ st
              (λ x i st, normalizeIngredient_total x i st) Hing)
    as (r1 & st1 & H1).
  rewrite (bind_ok _ _ _ _ _ H1). cbv beta.
  destruct (normalized_list_total normalizeStep _ st1
              (λ x i st, normalizeStep_total x i st) Hsteps)
    as (r2 & st2 & H2).
  rewrite (bind_ok _ _ _ _ _ H2). cbv beta.
  eexists _, _. split; [reflexivity|].
  split_and!.
  - by read_field.
  - by read_field.
  - read_field. apply (or_else_parseInt (prop (VObj o) "prep_time") 0). lia.
  - read_field. apply (or_else_parseInt (prop (VObj o) "cook_time") 0). lia.
  - read_field. apply (or_else_parseInt (prop (VObj o) "servings") 1). lia.
  - read_field. apply (or_else_parseInt_truthy (prop (VObj o) "servings")).
  - read_field. unfold or_else.
    by destruct (truthy (default VUndef (o !! "name"))) eqn:E.
  - intros Hname. read_field. unfold or_else. simpl in Hname. by rewrite Hname.
Qed.

(** A recipe without name, whose [prep_time] is not a number and whose
    [servings] is "0": the defaults are filled in. *)
Lemma normalizeRecipeData_shape_witness :
  ∃ out st',
    normalizeRecipeData (H := offline_platform) recipe_sparse empty_state = (Ok out, st') ∧
    isArray (prop out "ingredients") = true ∧
    isArray (prop out "steps") = true ∧
    prop out "prep_time" = VNum 0 ∧
    prop out "servings" = VNum 1 ∧
    prop out "name" = VStr "Untitled Recipe".
Proof.
  destruct (normalizeRecipeData_shape (H := offline_platform) empty_state
              {[ "id" := VStr "r8";
                 "ingredients" := VArr [VObj {[ "name" := VStr "Garam" ]}];
                 "prep_time" := VStr "soon"; "servings" := VStr "0" ]})
    as (out & st' & Hrun & Hing & Hsteps & _ & _ & _ & _ & _ & Hname).
  - repeat constructor.
  - exact I.
  - exists out, st'. split_and!; [exact Hrun|exact Hing|exact Hsteps| | |].
    + assert (Hout : Ok out = (normalizeRecipeData (H := offline_platform)
                                  recipe_sparse empty_state).1)
        by (unfold recipe_sparse; by rewrite Hrun).
      injection Hout as ->. vm_compute. reflexivity.
    + assert (Hout : Ok out = (normalizeRecipeData (H := offline_platform)
                                  recipe_sparse empty_state).1)
        by (unfold recipe_sparse; by rewrite Hrun).
      injection Hout as ->. vm_compute. reflexivity.
    + apply Hname. reflexivity.
Defined.

(** C1. The normalizer sets out to give the numeric fields proper values,
    but [parseInt(x) || default] replaces only [NaN] and 0: of the recipe
    with [prep_time: "-5"], [cook_time: -10] and [servings: -2] the three
    negative numbers are returned, where the specification has [prep_time] and
    [cook_time] at least 0 and [servings] at least 1. *)
Lemma normalizeRecipeData_keeps_negative :
  match (normalizeRecipeData (H := offline_platform) recipe_negative empty_state).1 with
  | Ok out =>
      prop out "prep_time" = VNum (-5) ∧
      prop out "cook_time" = VNum (-10) ∧
      prop out "servings" = VNum (-2)
  | Throw _ => False
  end.
Proof. vm_compute. split_and!; reflexivity. Qed.

(** A [null] among the ingredients makes the normalizer throw. *)
Lemma normalizeRecipeData_null_ingredient :
  (normalizeRecipeData (H := offline_platform)
     (VObj {[ "name" := VStr "Soto"; "ingredients" := VArr [VNull] ]})
     empty_state).1 = Throw TypeError.
Proof. vm_compute. reflexivity. Qed.

(** * Further properties of the storage utilities *)

(** ** Keys of drafts *)

Lemma reserved_false draftId :
  reserved draftId = false →
  draft_key draftId = DRAFT_KEY_PREFIX +:+ draftId ∧
  negb (String.eqb draftId "user_profile") && negb (String.eqb draftId FAVORITES_KEY) = true.
Proof.
  unfold reserved, draft_key. intros [-> ->]%orb_false_elim. done.
Qed.

Lemma reserved_true draftId :
  reserved draftId = true →
  draft_key draftId = draftId ∧
  negb (String.eqb draftId "user_profile") && negb (String.eqb draftId FAVORITES_KEY) = false.
Proof.
  unfold reserved, draft_key.
  destruct (String.eqb draftId "user_profile") eqn:E1.
  - apply String.eqb_eq in E1 as ->. done.
  - destruct (String.eqb draftId FAVORITES_KEY) eqn:E2; [|done].
    apply String.eqb_eq in E2 as ->. done.
Qed.

Lemma append_inv_l (p s t : string) : p +:+ s = p +:+ t → s = t.
Proof. induction p as [|c p IH]; simpl; [done|]. intros [= Heq]. by apply IH. Qed.

Lemma reserved_not_prefixed s : reserved (DRAFT_KEY_PREFIX +:+ s) = false.
Proof. done. Qed.

Lemma draft_key_inj id1 id2 : draft_key id1 = draft_key id2 → id1 = id2.
Proof.
  destruct (reserved id1) eqn:R1, (reserved id2) eqn:R2.
  - destruct (reserved_true _ R1) as [-> _]. destruct (reserved_true _ R2) as [-> _]. done.
  - destruct (reserved_true _ R1) as [-> _]. destruct (reserved_false _ R2) as [-> _].
    intros ->. by rewrite reserved_not_prefixed in R1.
  - destruct (reserved_false _ R1) as [-> _]. destruct (reserved_true _ R2) as [-> _].
    intros <-. by rewrite reserved_not_prefixed in R2.
  - destruct (reserved_false _ R1) as [-> _]. destruct (reserved_false _ R2) as [-> _].
    apply append_inv_l.
Qed.

(** The timestamp key of a draft is the key of no draft, except of the one
    whose identifier is the first one followed by the timestamp suffix. *)
Lemma timestamp_key_not_draft_key id1 id2 :
  reserved id1 = false →
  id2 ≠ id1 +:+ "_" +:+ DRAFT_TIMESTAMP_KEY →
  draft_key id2 ≠ timestamp_key id1.
Proof.
  intros R1 Hne. unfold timestamp_key. destruct (reserved_false _ R1) as [-> _].
  destruct (reserved id2) eqn:R2.
  - destruct (reserved_true _ R2) as [-> _]. intros ->.
    change (reserved (DRAFT_KEY_PREFIX +:+ (id1 +:+ "_" +:+ DRAFT_TIMESTAMP_KEY)) = true) in R2.
    by rewrite reserved_not_prefixed in R2.
  - destruct (reserved_false _ R2) as [-> _]. intros Heq. apply Hne.
    apply (append_inv_l DRAFT_KEY_PREFIX). rewrite Heq.
    clear. generalize ("_" +:+ DRAFT_TIMESTAMP_KEY). intros t.
    unfold DRAFT_KEY_PREFIX. simpl. done.
Qed.

Lemma timestamp_key_neq id : timestamp_key id ≠ draft_key id.
Proof. unfold timestamp_key. by apply append_neq_self. Qed.

(** ** Saving, deleting and looking up drafts *)

Lemma loadDraft_run st draftId :
  loadDraft draftId st = (Ok (draft_in (storage st) draftId), st).
Proof.
  unfold loadDraft, draft_in, try_catch, bind, getItem.
  destruct (blocked (storage st)); [done|].
  destruct (items (storage st) !! draft_key draftId) as [[v|s]|]; simpl; [done| |done].
  by destruct (String.eqb s "").
Qed.

Lemma hasDraft_run st draftId :
  hasDraft draftId st =
    (Ok (if blocked (storage st) then false
         else bool_decide (is_Some (items (storage st) !! draft_key draftId))), st).
Proof.
  unfold hasDraft, try_catch, bind, getItem. by destruct (blocked (storage st)).
Qed.

Lemma getDraftTimestamp_run st draftId :
  getDraftTimestamp draftId st =
    (Ok (if blocked (storage st) then None
         else items (storage st)
                !! (DRAFT_KEY_PREFIX +:+ draftId +:+ "_" +:+ DRAFT_TIMESTAMP_KEY)), st).
Proof.
  unfold getDraftTimestamp, try_catch, getItem. by destruct (blocked (storage st)).
Qed.

Lemma bind_removeItem {B} key (k : unit → M B) st :
  blocked (storage st) = false →
  bind (removeItem key) k st =
    k tt (with_storage st (with_items (storage st) (delete key (items (storage st))))).
Proof. intros Hb. unfold bind, removeItem. by rewrite Hb. Qed.

(** The items after [saveDraft]: the draft under its key and, unless the
    identifier is reserved, the time of the save under the timestamp key. *)
Lemma saveDraft_items `{Platform} st draftData draftId :
  working st →
  let ts := toISOString (clock (ticks st)) in
  let json := JSON_stringify (object (spread draftData) [("savedAt", VStr ts)]) in
  ∃ st1,
    saveDraft draftData draftId st = (Ok true, st1) ∧
    working st1 ∧
    items (storage st1) =
      if reserved draftId then <[draft_key draftId := json]> (items (storage st))
      else <[timestamp_key draftId := Plain ts]>
             (<[draft_key draftId := json]> (items (storage st))).
Proof.
  intros [Hb Hf]. simpl. unfold saveDraft, try_catch. repeat mstep.
  destruct (reserved draftId) eqn:R.
  - destruct (reserved_true _ R) as [_ ->]. rewrite bind_ret. by eexists.
  - destruct (reserved_false _ R) as [_ ->]. mstep. by eexists.
Qed.

(** Without a working storage [saveDraft] returns [false] and stores
    nothing. *)
Lemma saveDraft_not_working `{Platform} st draftData draftId :
  ¬ working st →
  ∃ st1, saveDraft draftData draftId st = (Ok false, st1) ∧ storage st1 = storage st.
Proof.
  intros Hw. unfold saveDraft, try_catch. mstep.
  match goal with
  | |- context [bind (setItem ?key ?t) ?k ?s] =>
      destruct (setItem_not_working key t s Hw) as [e He];
      rewrite (bind_thrown _ _ _ _ _ He)
  end. by eexists.
Qed.

Lemma deleteDraft_items st draftId :
  blocked (storage st) = false →
  ∃ st1,
    deleteDraft draftId st = (Ok true, st1) ∧
    blocked (storage st1) = false ∧ full (storage st1) = full (storage st) ∧
    items (storage st1) =
      if reserved draftId then delete (draft_key draftId) (items (storage st))
      else delete (timestamp_key draftId)
             (delete (draft_key draftId) (items (storage st))).
Proof.
  intros Hb. unfold deleteDraft, try_catch. rewrite bind_removeItem by done.
  destruct (reserved draftId) eqn:R.
  - destruct (reserved_true _ R) as [_ ->]. rewrite bind_ret. by eexists.
  - destruct (reserved_false _ R) as [_ ->]. rewrite bind_removeItem by done.
    by eexists.
Qed.

Lemma draft_in_other (ls ls' : localStorage) draftId :
  blocked ls' = blocked ls →
  items ls' !! draft_key draftId = items ls !! draft_key draftId →
  draft_in ls' draftId = draft_in ls draftId.
Proof. unfold draft_in. by intros -> ->. Qed.

(** Saving or deleting the draft [id1] leaves every other draft [id2] as it
    reads, in every state of the storage. The second premise is needed: the
    timestamp of [id1] is recorded under the key of the draft whose
    identifier is [id1] followed by "_recipe_draft_timestamp". *)
Theorem drafts_are_isolated `{Platform}
    (st : state) (draftData : value) (id1 id2 : string) :
  id2 ≠ id1 → id2 ≠ id1 +:+ "_" +:+ DRAFT_TIMESTAMP_KEY →
  (loadDraft id2 (saveDraft draftData id1 st).2).1 = (loadDraft id2 st).1 ∧
  (loadDraft id2 (deleteDraft id1 st).2).1 = (loadDraft id2 st).1.
Proof.
  intros Hne Hts. rewrite !loadDraft_run. simpl.
  assert (Hkey : draft_key id1 ≠ draft_key id2) by (by intros ?%draft_key_inj).
  split; f_equal.
  - destruct (working_dec st) as [Hw|Hw].
    + destruct (saveDraft_items st draftData id1 Hw) as (st1 & -> & [Hb1 _] & Hitems).
      simpl. apply draft_in_other; [by rewrite Hb1, (proj1 Hw)|]. rewrite Hitems.
      destruct (reserved id1) eqn:R.
      * by rewrite lookup_insert_ne.
      * rewrite !lookup_insert_ne; [done|done|].
        intros Heq. by eapply timestamp_key_not_draft_key.
    + destruct (saveDraft_not_working st draftData id1 Hw) as (st1 & Hrun & Hst).
      rewrite Hrun. simpl. by rewrite Hst.
  - destruct (blocked (storage st)) eqn:Hb.
    + unfold deleteDraft, try_catch, bind, removeItem. by rewrite Hb.
    + destruct (deleteDraft_items st id1 Hb) as (st1 & -> & Hb1 & _ & Hitems).
      simpl. apply draft_in_other; [by rewrite Hb1|]. rewrite Hitems.
      destruct (reserved id1) eqn:R.
      * by rewrite lookup_delete_ne.
      * rewrite !lookup_delete_ne; [done|done|].
        intros Heq. by eapply timestamp_key_not_draft_key.
Qed.

(** Saving the creation draft leaves the draft of "r7" as it was. *)
Lemma drafts_are_isolated_witness :
  (loadDraft "r7"
     (saveDraft (H := offline_platform) soto_draft "create" two_drafts_state).2).1
  = Ok (VObj {[ "name" := VStr "Rendang" ]}).
Proof.
  rewrite (proj1 (drafts_are_isolated (H := offline_platform)
                    two_drafts_state soto_draft "create" "r7"
                    ltac:(discriminate) ltac:(discriminate))).
  reflexivity.
Defined.

(** The premise on the timestamp suffix cannot be dropped: saving the draft
    "a" overwrites the draft "a_recipe_draft_timestamp", which then reads
    as no draft. *)
Lemma saveDraft_timestamp_collision :
  let st := state_of {[ draft_key "a_recipe_draft_timestamp" := Json soto_draft ]} in
  (loadDraft "a_recipe_draft_timestamp" st).1 = Ok soto_draft ∧
  (loadDraft "a_recipe_draft_timestamp"
     (saveDraft (H := offline_platform) soto_draft "a" st).2).1 = Ok VNull.
Proof. vm_compute. split; reflexivity. Qed.

(** [deleteDraft] succeeds whenever the storage can be accessed, also on a
    full storage and for a draft that does not exist. Afterwards the draft
    reads as [null], [hasDraft] is [false], the timestamp of an identifier
    that is not reserved is [null], and no other record has changed. *)
Theorem deleteDraft_forgets (st : state) (draftId : string) :
  blocked (storage st) = false →
  ∃ st1,
    deleteDraft draftId st = (Ok true, st1) ∧
    loadDraft draftId st1 = (Ok VNull, st1) ∧
    hasDraft draftId st1 = (Ok false, st1) ∧
    (reserved draftId = false → getDraftTimestamp draftId st1 = (Ok None, st1)) ∧
    (∀ key, key ≠ draft_key draftId → key ≠ timestamp_key draftId →
            items (storage st1) !! key = items (storage st) !! key).
Proof.
  intros Hb. destruct (deleteDraft_items st draftId Hb) as (st1 & Hrun & Hb1 & _ & Hitems).
  exists st1.
  assert (Hgone : items (storage st1) !! draft_key draftId = None).
  { rewrite Hitems. destruct (reserved draftId).
    - apply lookup_delete_eq.
    - rewrite lookup_delete_ne by apply timestamp_key_neq. apply lookup_delete_eq. }
  split_and!.
  - done.
  - rewrite loadDraft_run. unfold draft_in. by rewrite Hb1, Hgone.
  - by rewrite hasDraft_run, Hb1, Hgone.
  - intros R. rewrite getDraftTimestamp_run, Hb1, Hitems, R.
    destruct (reserved_false _ R) as [Hkey _]. unfold timestamp_key. rewrite Hkey.
    by rewrite lookup_delete_eq.
  - intros key Hk Ht. rewrite Hitems. destruct (reserved draftId).
    + by rewrite lookup_delete_ne.
    + by rewrite !lookup_delete_ne.
Qed.

Lemma deleteDraft_forgets_witness :
  ∃ st1,
    deleteDraft "create" two_drafts_state = (Ok true, st1) ∧
    loadDraft "create" st1 = (Ok VNull, st1) ∧
    hasDraft "create" st1 = (Ok false, st1) ∧
    getDraftTimestamp "create" st1 = (Ok None, st1) ∧
    hasDraft "r7" st1 = (Ok true, st1).
Proof.
  destruct (deleteDraft_forgets two_drafts_state "create" eq_refl)
    as (st1 & Hrun & Hload & Hhas & Hts & Hframe).
  exists st1. split_and!; [exact Hrun|exact Hload|exact Hhas|apply Hts; reflexivity|].
  rewrite hasDraft_run.
  assert (Hst1 : st1 = (deleteDraft "create" two_drafts_state).2) by (by rewrite Hrun).
  rewrite Hst1. vm_compute. reflexivity.
Defined.

(** After a successful [saveDraft] of an identifier that is not reserved,
    [hasDraft] is [true] and the timestamp record holds the very string
    that the stored draft carries as [savedAt]. *)
Theorem saveDraft_timestamp_matches `{Platform}
    (st : state) (draftData : value) (draftId : string) :
  working st → is_json draftData → reserved draftId = false →
  ∃ st1 loaded ts,
    saveDraft draftData draftId st = (Ok true, st1) ∧
    hasDraft draftId st1 = (Ok true, st1) ∧
    getDraftTimestamp draftId st1 = (Ok (Some (Plain ts)), st1) ∧
    loadDraft draftId st1 = (Ok loaded, st1) ∧
    prop loaded "savedAt" = VStr ts ∧
    ts = toISOString (clock (ticks st)).
Proof.
  intros Hw Hjson%is_json_spread R.
  destruct (saveDraft_items st draftData draftId Hw) as (st1 & Hrun & [Hb1 _] & Hitems).
  simpl in Hitems. rewrite R in Hitems.
  assert (Hdraft : items (storage st1) !! draft_key draftId =
            Some (Json (object (spread draftData)
                          [("savedAt", VStr (toISOString (clock (ticks st))))]))).
  { rewrite Hitems, lookup_insert_ne by apply timestamp_key_neq.
    rewrite lookup_insert_eq, JSON_stringify_is_json; [done|].
    apply is_json_obj. simpl. by apply map_Forall_insert_2. }
  exists st1. eexists _, _. split_and!; [done| | | | |reflexivity].
  - by rewrite hasDraft_run, Hb1, Hdraft.
  - rewrite getDraftTimestamp_run, Hb1, Hitems.
    destruct (reserved_false _ R) as [Hkey _].
    replace (DRAFT_KEY_PREFIX +:+ draftId +:+ "_" +:+ DRAFT_TIMESTAMP_KEY)
      with (timestamp_key draftId); [by rewrite lookup_insert_eq|].
    unfold timestamp_key. rewrite Hkey. clear. unfold DRAFT_KEY_PREFIX. simpl. done.
  - rewrite loadDraft_run. unfold draft_in. by rewrite Hb1, Hdraft.
  - simpl. by rewrite lookup_insert_eq.
Qed.

Lemma saveDraft_timestamp_matches_witness :
  ∃ st1,
    saveDraft (H := offline_platform) soto_draft "create" empty_state = (Ok true, st1) ∧
    hasDraft "create" st1 = (Ok true, st1) ∧
    getDraftTimestamp "create" st1 = (Ok (Some (Plain "2023-11-14T22:13:20.000Z")), st1).
Proof.
  destruct (saveDraft_timestamp_matches (H := offline_platform)
              empty_state soto_draft "create" (conj eq_refl eq_refl))
    as (st1 & loaded & ts & Hrun & Hhas & Hts & _ & _ & ->).
  - vm_compute. reflexivity.
  - reflexivity.
  - exists st1. split_and!; [exact Hrun|exact Hhas|exact Hts].
Defined.

(** Saving under a reserved identifier ("user_profile", "user_favorites")
    writes the one record of that name and no timestamp: every other record,
    and so every answer of [getDraftTimestamp], is as before. *)
Theorem saveDraft_reserved_no_timestamp `{Platform}
    (st : state) (draftData : value) (draftId : string) :
  reserved draftId = true →
  (∀ key, key ≠ draftId →
     items (storage (saveDraft draftData draftId st).2) !! key
     = items (storage st) !! key) ∧
  (∀ id, (getDraftTimestamp id (saveDraft draftData draftId st).2).1
         = (getDraftTimestamp id st).1).
Proof.
  intros R. destruct (reserved_true _ R) as [Hkey _].
  assert (Hother : ∀ key, key ≠ draftId →
            items (storage (saveDraft draftData draftId st).2) !! key
            = items (storage st) !! key).
  { intros key Hne. destruct (working_dec st) as [Hw|Hw].
    - destruct (saveDraft_items st draftData draftId Hw) as (st1 & -> & _ & Hitems).
      simpl in *. rewrite Hitems, R, Hkey. by rewrite lookup_insert_ne.
    - destruct (saveDraft_not_working st draftData draftId Hw) as (st1 & Hrun & Hst).
      rewrite Hrun. simpl. by rewrite Hst. }
  split; [done|].
  intros id. rewrite !getDraftTimestamp_run. simpl.
  assert (Hb : blocked (storage (saveDraft draftData draftId st).2) = blocked (storage st)).
  { destruct (working_dec st) as [Hw|Hw].
    - destruct (saveDraft_items st draftData draftId Hw) as (st1 & -> & [Hb1 _] & _).
      simpl. by rewrite Hb1, (proj1 Hw).
    - destruct (saveDraft_not_working st draftData draftId Hw) as (st1 & Hrun & Hst).
      rewrite Hrun. simpl. by rewrite Hst. }
  rewrite Hb. destruct (blocked (storage st)); [done|]. f_equal. apply Hother.
  intros <-. change (reserved (DRAFT_KEY_PREFIX +:+ (id +:+ "_" +:+ DRAFT_TIMESTAMP_KEY)) = true) in R.
  by rewrite reserved_not_prefixed in R.
Qed.

Lemma saveDraft_reserved_no_timestamp_witness :
  (getDraftTimestamp "user_profile"
     (saveDraft (H := offline_platform) soto_draft "user_profile" empty_state).2).1
  = Ok None.
Proof.
  rewrite (proj2 (saveDraft_reserved_no_timestamp (H := offline_platform)
                    empty_state soto_draft "user_profile" eq_refl)).
  reflexivity.
Defined.

(** ** Listing and clearing drafts *)

Lemma append_cons c (p r : string) : String c p +:+ r = String c (p +:+ r).
Proof. done. Qed.

Lemma prefix_append p r : String.prefix p (p +:+ r) = true.
Proof.
  induction p as [|c p IH]; simpl; [by destruct r|].
  destruct (Ascii.ascii_dec c c); [done|congruence].
Qed.

Lemma prefix_split p s :
  String.prefix p s = true → s = p +:+ string_drop (String.length p) s.
Proof.
  revert s. induction p as [|c p IH]; intros s.
  - by destruct s.
  - destruct s as [|d s]; simpl; [done|].
    destruct (Ascii.ascii_dec c d) as [->|]; [|done].
    intros Hp. rewrite append_cons. f_equal. by apply IH.
Qed.

Lemma string_drop_append p r : string_drop (String.length p) (p +:+ r) = r.
Proof. induction p as [|c p IH]; simpl; [by destruct r|done]. Qed.

Lemma replace_unfold p r s :
  replace p r s =
    if String.prefix p s then r +:+ string_drop (String.length p) s
    else match s with
         | String c s' => String c (replace p r s')
         | EmptyString => EmptyString
         end.
Proof. by destruct s. Qed.

Lemma replace_prefix p r : replace p "" (p +:+ r) = r.
Proof. by rewrite replace_unfold, prefix_append, string_drop_append. Qed.

Lemma elem_of_keys (m : gmap string text) key :
  key ∈ (map_to_list m).*1 ↔ is_Some (m !! key).
Proof.
  rewrite list_elem_of_fmap. split.
  - intros ([k t] & -> & Hin). apply elem_of_map_to_list in Hin. by eexists.
  - intros [t Ht]. exists (key, t). split; [done|]. by apply elem_of_map_to_list.
Qed.

Lemma getAllDraftIds_spec (st : state) :
  ∃ ids,
    getAllDraftIds st = (Ok ids, st) ∧
    ∀ id, id ∈ ids ↔
          blocked (storage st) = false ∧
          is_Some (items (storage st) !! (DRAFT_KEY_PREFIX +:+ id)) ∧
          includes DRAFT_TIMESTAMP_KEY (DRAFT_KEY_PREFIX +:+ id) = false.
Proof.
  unfold getAllDraftIds, try_catch, bind, Object_keys_localStorage.
  destruct (blocked (storage st)) eqn:Hb.
  { exists []. split; [done|]. intros id. split; [by intros ?%elem_of_nil|by intros [? _]]. }
  eexists. split; [done|]. intros id.
  rewrite list_elem_of_fmap. split.
  - intros (key & -> & Hkey). apply list_elem_of_In, filter_In in Hkey as [Hin Hcond].
    apply list_elem_of_In, elem_of_keys in Hin.
    apply andb_true_iff in Hcond as [Hpre Hinc]. apply negb_true_iff in Hinc.
    apply prefix_split in Hpre. rewrite Hpre, replace_prefix, <- Hpre. done.
  - intros (_ & Hin & Hinc). exists (DRAFT_KEY_PREFIX +:+ id).
    split; [by rewrite replace_prefix|].
    apply list_elem_of_In, filter_In. split.
    + by apply list_elem_of_In, elem_of_keys.
    + unfold startsWith. by rewrite prefix_append, Hinc.
Qed.

(** [getAllDraftIds] always returns and leaves the state as it is. On a
    storage that can be accessed it lists exactly the identifiers whose
    prefixed key is stored and does not contain "recipe_draft_timestamp":
    the timestamp records are left out, and so is a draft whose own
    identifier makes its key contain that text. Every listed identifier
    that is not reserved is one for which [hasDraft] answers [true]. *)
Theorem getAllDraftIds_lists (st : state) :
  ∃ ids,
    getAllDraftIds st = (Ok ids, st) ∧
    (∀ id, id ∈ ids ↔
           blocked (storage st) = false ∧
           is_Some (items (storage st) !! (DRAFT_KEY_PREFIX +:+ id)) ∧
           includes DRAFT_TIMESTAMP_KEY (DRAFT_KEY_PREFIX +:+ id) = false) ∧
    (∀ id, id ∈ ids → reserved id = false → hasDraft id st = (Ok true, st)).
Proof.
  destruct (getAllDraftIds_spec st) as (ids & Hrun & Hspec).
  exists ids. split_and!; [done|done|].
  intros id (Hb & Hstored & _)%Hspec R.
  destruct (reserved_false _ R) as [Hkey _].
  rewrite hasDraft_run, Hb, Hkey. by rewrite bool_decide_eq_true_2.
Qed.

Lemma lookup_without_draft_None (m : gmap string text) id key :
  m !! key = None → without_draft m id !! key = None.
Proof.
  intros Hm. unfold without_draft. destruct (reserved id).
  - rewrite lookup_delete. by case_decide.
  - rewrite !lookup_delete. by repeat case_decide.
Qed.

Lemma lookup_without_draft_eq (m : gmap string text) id :
  without_draft m id !! draft_key id = None.
Proof.
  unfold without_draft. destruct (reserved id).
  - apply lookup_delete_eq.
  - rewrite lookup_delete_ne by apply timestamp_key_neq. apply lookup_delete_eq.
Qed.

Lemma lookup_without_draft_ne (m : gmap string text) id key :
  key ≠ draft_key id → (reserved id = false → key ≠ timestamp_key id) →
  without_draft m id !! key = m !! key.
Proof.
  intros Hk Ht. unfold without_draft. destruct (reserved id).
  - by rewrite lookup_delete_ne.
  - rewrite !lookup_delete_ne; [done|done|]. intros Heq. by apply Ht.
Qed.

Lemma lookup_without_drafts_None ids (m : gmap string text) key :
  m !! key = None → without_drafts ids m !! key = None.
Proof.
  unfold without_drafts. revert m. induction ids as [|id ids IH]; intros m Hm; [done|].
  simpl. by apply IH, lookup_without_draft_None.
Qed.

Lemma lookup_without_drafts_elem ids (m : gmap string text) id :
  id ∈ ids → without_drafts ids m !! draft_key id = None.
Proof.
  unfold without_drafts. revert m.
  induction ids as [|id' ids IH]; intros m Hin; [by apply elem_of_nil in Hin|].
  simpl. apply elem_of_cons in Hin as [->|Hin]; [|by apply IH].
  apply (lookup_without_drafts_None ids), lookup_without_draft_eq.
Qed.

Lemma lookup_without_drafts_ne ids (m : gmap string text) key :
  Forall (λ id, key ≠ draft_key id ∧ (reserved id = false → key ≠ timestamp_key id)) ids →
  without_drafts ids m !! key = m !! key.
Proof.
  unfold without_drafts. intros Hids. revert m.
  induction Hids as [|id ids [Hk Ht] _ IH]; intros m; [done|].
  simpl. by rewrite IH, lookup_without_draft_ne.
Qed.

Lemma lookup_without_draft_cases (m : gmap string text) id key :
  without_draft m id !! key = None ∨ without_draft m id !! key = m !! key.
Proof.
  unfold without_draft.
  destruct (reserved id); rewrite ?lookup_delete; repeat case_decide; auto.
Qed.

Lemma lookup_without_drafts_cases ids (m : gmap string text) key :
  without_drafts ids m !! key = None ∨ without_drafts ids m !! key = m !! key.
Proof.
  unfold without_drafts. revert m. induction ids as [|id ids IH]; intros m; simpl.
  - by right.
  - destruct (IH (without_draft m id)) as [Hnone|Heq]; [by left|].
    rewrite Heq. apply lookup_without_draft_cases.
Qed.

Lemma forEachM_deleteDraft ids st :
  blocked (storage st) = false →
  ∃ st1,
    forEachM deleteDraft ids st = (Ok tt, st1) ∧
    blocked (storage st1) = false ∧
    items (storage st1) = without_drafts ids (items (storage st)).
Proof.
  revert st. induction ids as [|id ids IH]; intros st Hb; simpl.
  - by eexists.
  - destruct (deleteDraft_items st id Hb) as (st1 & Hrun & Hb1 & _ & Hitems).
    rewrite (bind_ok _ _ _ _ _ Hrun).
    destruct (IH st1 Hb1) as (st2 & Hrun2 & Hb2 & Hitems2).
    exists st2. split_and!; [done..|]. by rewrite Hitems2, Hitems.
Qed.

Lemma string_append_assoc (a b c : string) : (a +:+ b) +:+ c = a +:+ (b +:+ c).
Proof.
  induction a as [|x a IH]; [done|]. by rewrite !append_cons, IH.
Qed.

Lemma prefixed_starts s : startsWith DRAFT_KEY_PREFIX (DRAFT_KEY_PREFIX +:+ s) = true.
Proof. apply prefix_append. Qed.

(** [clearAllDrafts] on a storage that can be accessed returns [true].
    Afterwards every draft whose identifier is not reserved and whose key
    does not contain "recipe_draft_timestamp" reads as [null]; nothing has
    been written; and a record whose key does not start with the draft
    prefix is as before, unless it is the record of a reserved identifier
    and a record with that identifier behind the draft prefix was stored. *)
Theorem clearAllDrafts_clears (st : state) :
  blocked (storage st) = false →
  ∃ st1,
    clearAllDrafts st = (Ok true, st1) ∧
    (∀ id, reserved id = false →
           includes DRAFT_TIMESTAMP_KEY (DRAFT_KEY_PREFIX +:+ id) = false →
           loadDraft id st1 = (Ok VNull, st1) ∧ hasDraft id st1 = (Ok false, st1)) ∧
    (∀ key, items (storage st1) !! key = None ∨
            items (storage st1) !! key = items (storage st) !! key) ∧
    (∀ key, startsWith DRAFT_KEY_PREFIX key = false →
            (reserved key = true →
               items (storage st) !! (DRAFT_KEY_PREFIX +:+ key) = None) →
            items (storage st1) !! key = items (storage st) !! key).
Proof.
  intros Hb. destruct (getAllDraftIds_spec st) as (ids & Hids & Hspec).
  destruct (forEachM_deleteDraft ids st Hb) as (st1 & Hrun & Hb1 & Hitems).
  exists st1. split_and!.
  - unfold clearAllDrafts, try_catch.
    by rewrite (bind_ok _ _ _ _ _ Hids), (bind_ok _ _ _ _ _ Hrun).
  - intros id R Hinc. destruct (reserved_false _ R) as [Hkey _].
    assert (Hgone : items (storage st1) !! draft_key id = None).
    { rewrite Hitems.
      destruct (items (storage st) !! draft_key id) as [t|] eqn:E.
      - apply lookup_without_drafts_elem, Hspec.
        split_and!; [done| |done]. rewrite <- Hkey, E. by eexists.
      - by apply lookup_without_drafts_None. }
    rewrite loadDraft_run, hasDraft_run. unfold draft_in. by rewrite Hb1, Hgone.
  - intros key. rewrite Hitems. apply lookup_without_drafts_cases.
  - intros key Hpre Hres. rewrite Hitems. apply lookup_without_drafts_ne.
    apply Forall_forall. intros id (_ & Hin & _)%Hspec.
    destruct (reserved id) eqn:R.
    + destruct (reserved_true _ R) as [-> _]. split; [|done].
      intros ->. rewrite (Hres R) in Hin. by destruct Hin.
    + destruct (reserved_false _ R) as [Hkey _]. unfold timestamp_key. rewrite Hkey.
      split.
      * intros ->. by rewrite prefixed_starts in Hpre.
      * intros _ ->. unfold startsWith in Hpre.
        by rewrite string_append_assoc, prefix_append in Hpre.
Qed.

Lemma clearAllDrafts_clears_witness :
  ∃ st1,
    clearAllDrafts many_drafts_state = (Ok true, st1) ∧
    loadDraft "create" st1 = (Ok VNull, st1) ∧
    loadDraft "r7" st1 = (Ok VNull, st1) ∧
    items (storage st1) !! USER_PROFILE_KEY =
      Some (Json (VObj {[ "username" := VStr "Pengguna" ]})).
Proof.
  destruct (clearAllDrafts_clears many_drafts_state eq_refl)
    as (st1 & Hrun & Hgone & _ & Hkept).
  exists st1. split_and!.
  - exact Hrun.
  - apply (Hgone "create"); vm_compute; reflexivity.
  - apply (Hgone "r7"); vm_compute; reflexivity.
  - rewrite (Hkept USER_PROFILE_KEY); [reflexivity|reflexivity|].
    intros _. vm_compute. reflexivity.
Defined.

(** A draft whose identifier is "timestamp" is kept under the key
    "recipe_draft_timestamp": it is not listed, and it survives
    [clearAllDrafts]. *)
Lemma draft_named_timestamp_survives :
  (loadDraft "timestamp" (clearAllDrafts many_drafts_state).2).1
  = Ok (VObj {[ "name" := VStr "Gado-gado" ]}).
Proof. vm_compute. reflexivity. Qed.

(** *** A draft that can be loaded exists *)

(** Whenever [loadDraft] returns a draft (a value other than [null] and
    [undefined]), [hasDraft] answers [true] for the same identifier. The
    converse fails for content that cannot be decoded: [hasDraft] answers
    [true] for it while [loadDraft] returns [null]. *)
Theorem loadDraft_implies_hasDraft (st : state) (draftId : string) :
  (∀ v, loadDraft draftId st = (Ok v, st) → nullish v = false →
        hasDraft draftId st = (Ok true, st)) ∧
  (∀ s, blocked (storage st) = false →
        items (storage st) !! draft_key draftId = Some (Plain s) →
        hasDraft draftId st = (Ok true, st) ∧
        loadDraft draftId st = (Ok VNull, st)).
Proof.
  split.
  - intros v Hload Hv. rewrite loadDraft_run in Hload. injection Hload as <-.
    rewrite hasDraft_run. unfold draft_in in Hv.
    destruct (blocked (storage st)); [done|].
    by destruct (items (storage st) !! draft_key draftId) as [[w|s]|].
  - intros s Hb Hitem. rewrite hasDraft_run, loadDraft_run. unfold draft_in.
    by rewrite Hb, Hitem.
Qed.

(** The creation draft of the sample storage is loaded, and it exists; the
    undecodable one exists and is not loaded. *)
Lemma loadDraft_implies_hasDraft_witness :
  hasDraft "create" two_drafts_state = (Ok true, two_drafts_state) ∧
  hasDraft "create" corrupt_state = (Ok true, corrupt_state) ∧
  loadDraft "create" corrupt_state = (Ok VNull, corrupt_state).
Proof.
  split.
  - apply (proj1 (loadDraft_implies_hasDraft two_drafts_state "create") soto_draft);
      reflexivity.
  - apply (proj2 (loadDraft_implies_hasDraft corrupt_state "create") "{name:");
      reflexivity.
Defined.

(** * Further properties of the favourites *)

Lemma saveFavorites_ok st favoritesData :
  working st →
  saveFavorites favoritesData st =
    (Ok true, put st FAVORITES_KEY (JSON_stringify favoritesData)).
Proof. intros [Hb Hf]. unfold saveFavorites, try_catch. by repeat mstep. Qed.

(** [saveFavorites] followed by [loadFavorites], for a JSON-serializable
    value on a working storage: an array is read back as it was saved, of
    any other value the [items] property is read (or the empty array, when
    that property is falsy). *)
Theorem saveFavorites_loadFavorites (st : state) (favoritesData : value) :
  working st → is_json favoritesData →
  ∃ st1,
    saveFavorites favoritesData st = (Ok true, st1) ∧
    loadFavorites st1 =
      (Ok (if isArray favoritesData then favoritesData
           else or_else (opt_prop favoritesData "items") (VArr [])), st1).
Proof.
  intros Hw Hjson. eexists. split; [by apply saveFavorites_ok|].
  rewrite loadFavorites_run. f_equal. f_equal.
  unfold favorites_in. simpl. rewrite (proj1 Hw), lookup_insert_eq.
  by rewrite JSON_stringify_is_json.
Qed.

Lemma saveFavorites_loadFavorites_witness :
  ∃ st1,
    saveFavorites (VArr [soto_entry; rendang_entry]) empty_state = (Ok true, st1) ∧
    loadFavorites st1 = (Ok (VArr [soto_entry; rendang_entry]), st1).
Proof.
  destruct (saveFavorites_loadFavorites empty_state (VArr [soto_entry; rendang_entry])
              (conj eq_refl eq_refl)) as (st1 & Hsave & Hload).
  - vm_compute. reflexivity.
  - exists st1. split; [exact Hsave|exact Hload].
Defined.

(** The decimal text of a natural number does not start with a letter. *)
Lemma pretty_N_go_ne_items x s s' :
  s ≠ "i" +:+ s' → pretty_N_go x s ≠ "i" +:+ s'.
Proof.
  revert s. induction (N.lt_wf_0 x) as [x _ IH]; intros s ?.
  assert (x = 0 ∨ 0 < x)%N as [->|?] by lia.
  - by rewrite pretty_N_go_0.
  - rewrite pretty_N_go_step by done. apply IH.
    { by apply N.div_lt. }
    unfold pretty_N_char. by repeat case_match.
Qed.

Lemma pretty_nat_ne_items (i : nat) : pretty i ≠ "items".
Proof.
  unfold pretty, pretty_nat, pretty, pretty_N.
  destruct (decide (N.of_nat i = 0%N)); [done|].
  by apply (pretty_N_go_ne_items _ "" "tems").
Qed.

Lemma indexed_no_items l : indexed l !! "items" = None.
Proof.
  destruct (indexed l !! "items") as [x|] eqn:E; [|done].
  exfalso. unfold indexed in E. apply elem_of_list_to_map_2 in E.
  apply elem_of_lookup_imap in E as (i & y & Heq & _).
  injection Heq as Hi _. by apply (pretty_nat_ne_items i).
Qed.

(** Favourites written through [saveDraft] under the reserved identifier
    "user_favorites" are wrapped in an object with [savedAt].
    [loadFavorites] then reads the [items] property of that object; a bare
    array saved this way is spread into numbered properties and reads back
    as no favourites at all. *)
Theorem saveDraft_favorites_shape `{Platform} (st : state) :
  working st →
  (∀ (o : gmap string value) s,
      is_json (VObj o) → o !! "items" = Some (VArr s) →
      loadFavorites (saveDraft (VObj o) FAVORITES_KEY st).2
      = (Ok (VArr s), (saveDraft (VObj o) FAVORITES_KEY st).2)) ∧
  (∀ l, is_json (VArr l) →
      loadFavorites (saveDraft (VArr l) FAVORITES_KEY st).2
      = (Ok (VArr []), (saveDraft (VArr l) FAVORITES_KEY st).2)).
Proof.
  intros Hw. split.
  - intros o s Hjson%is_json_spread Hitems.
    destruct (saveDraft_items st (VObj o) FAVORITES_KEY Hw) as (st1 & -> & [Hb1 _] & Hst1).
    unfold object in Hst1. simpl in *. rewrite JSON_stringify_is_json in Hst1.
    2: { apply is_json_obj. by apply map_Forall_insert_2. }
    eapply loadFavorites_items; [done|by rewrite Hst1, lookup_insert_eq|].
    by rewrite lookup_insert_ne.
  - intros l Hjson%is_json_spread.
    destruct (saveDraft_items st (VArr l) FAVORITES_KEY Hw) as (st1 & -> & [Hb1 _] & Hst1).
    unfold object in Hst1. simpl in *. rewrite JSON_stringify_is_json in Hst1.
    2: { apply is_json_obj. by apply map_Forall_insert_2. }
    rewrite loadFavorites_run. f_equal. f_equal. unfold favorites_in.
    rewrite Hb1, Hst1, lookup_insert_eq. simpl. unfold opt_prop. simpl.
    rewrite lookup_insert_ne by done. by rewrite indexed_no_items.
Qed.

Lemma saveDraft_favorites_shape_witness :
  (loadFavorites
     (saveDraft (H := frozen_platform) (VObj {[ "items" := VArr [soto_entry] ]})
        FAVORITES_KEY empty_state).2).1 = Ok (VArr [soto_entry]) ∧
  (loadFavorites
     (saveDraft (H := frozen_platform) (VArr [soto_entry])
        FAVORITES_KEY empty_state).2).1 = Ok (VArr []).
Proof.
  destruct (saveDraft_favorites_shape (H := frozen_platform) empty_state
              (conj eq_refl eq_refl)) as [Hobj Harr].
  split.
  - rewrite (Hobj {[ "items" := VArr [soto_entry] ]} [soto_entry]); [done| |done].
    vm_compute. reflexivity.
  - rewrite (Harr [soto_entry]); [done|]. vm_compute. reflexivity.
Defined.

(** *** Membership after an addition, a removal, a toggle *)

(** The membership test looks at the storage only. *)
Lemma someM_id_pure rid l st st' :
  (someM (λ fav, fid <- get fav "id" ;; ret (strict_eq fid rid)) l st).1 =
  (someM (λ fav, fid <- get fav "id" ;; ret (strict_eq fid rid)) l st').1 ∧
  (someM (λ fav, fid <- get fav "id" ;; ret (strict_eq fid rid)) l st).2 = st.
Proof.
  induction l as [|x l IH]; [done|]. simpl.
  destruct (nullish x) eqn:Hx.
  - by rewrite !bind_bind, !bind_get_nullish.
  - rewrite !bind_bind, !bind_get, !bind_ret by done.
    by destruct (strict_eq (prop x "id") rid).
Qed.

Lemma isRecipeFavorited_storage st st' recipeId :
  storage st' = storage st →
  (isRecipeFavorited recipeId st').1 = (isRecipeFavorited recipeId st).1.
Proof.
  intros Hst. unfold isRecipeFavorited, try_catch.
  rewrite (bind_ok _ _ _ _ _ (loadFavorites_run st)),
    (bind_ok _ _ _ _ _ (loadFavorites_run st')), Hst.
  destruct (favorites_in (storage st)) as [| | | | | | |l|]; try done.
  rewrite !bind_as_array.
  destruct (someM_id_pure recipeId l st st') as [Hres _].
  destruct (someM _ l st) as [[b|e] s], (someM _ l st') as [[b'|e'] s'];
    simpl in Hres; by simplify_eq.
Qed.



(** *** Favourites on a storage that cannot be written *)

Lemma addToFavorites_refused `{Platform} st recipe :
  ¬ working st →
  ∃ st', addToFavorites recipe st = (Ok false, st') ∧ storage st' = storage st.
Proof.
  intros Hw. unfold addToFavorites, try_catch.
  rewrite (bind_ok _ _ _ _ _ (loadFavorites_run st)). cbv beta.
  destruct (nullish recipe) eqn:Hrecipe; [rewrite bind_get_nullish by done; by eexists|].
  mstep. destruct (truthy (prop recipe "id")); repeat mstep.
  all: destruct (favorites_in (storage st)) as [| | | | | | |l|]; try by eexists.
  all: mstep.
  all: match goal with
       | |- context [bind (findIndexM ?p ?l0) ?k ?s] =>
           pose proof (findIndexM_id_readonly (prop recipe "id") l0 s) as Hro;
           destruct (findIndexM p l0 s) as [[[i|]|e] s'] eqn:E; simpl in Hro; subst s';
           [rewrite (bind_ok _ _ _ _ _ E)|rewrite (bind_ok _ _ _ _ _ E)
           |rewrite (bind_thrown _ _ _ _ _ E)]
       end; try by eexists.
  all: cbv beta match.
  all: match goal with
       | |- context [bind (setItem ?key ?t) ?k ?s] =>
           destruct (setItem_not_working key t s Hw) as [e He];
           rewrite (bind_thrown _ _ _ _ _ He)
       end; by eexists.
Qed.

Lemma removeFromFavorites_refused st recipeId :
  ¬ working st →
  ∃ st', removeFromFavorites recipeId st = (Ok false, st') ∧ storage st' = storage st.
Proof.
  intros Hw. unfold removeFromFavorites, try_catch.
  rewrite (bind_ok _ _ _ _ _ (loadFavorites_run st)). cbv beta.
  destruct (favorites_in (storage st)) as [| | | | | | |l|]; try by eexists.
  mstep.
  match goal with
  | |- context [bind (filterM ?p ?l0) ?k ?s] =>
      pose proof (filterM_id_readonly recipeId l0 s) as Hro;
      destruct (filterM p l0 s) as [[r|e] s'] eqn:E; simpl in Hro; subst s';
      [rewrite (bind_ok _ _ _ _ _ E)|rewrite (bind_thrown _ _ _ _ _ E)]
  end; try by eexists.
  cbv beta.
  match goal with
  | |- context [bind (setItem ?key ?t) ?k ?s] =>
      destruct (setItem_not_working key t s Hw) as [e He];
      rewrite (bind_thrown _ _ _ _ _ He)
  end. by eexists.
Qed.

(** When the storage cannot be written (blocked, or full), [addToFavorites]
    and [removeFromFavorites] return [false] and leave the storage as it
    is. [toggleFavorite] drops their result: it still answers the opposite
    of the current membership, while the membership stays what it was. *)
Theorem favorites_on_unwritable_storage `{Platform} (st : state) :
  ¬ working st →
  (∀ recipe, ∃ st',
      addToFavorites recipe st = (Ok false, st') ∧ storage st' = storage st) ∧
  (∀ recipeId, ∃ st',
      removeFromFavorites recipeId st = (Ok false, st') ∧ storage st' = storage st) ∧
  (∀ recipe, nullish recipe = false →
      ∃ b st',
        isRecipeFavorited (prop recipe "id") st = (Ok b, st) ∧
        toggleFavorite recipe st = (Ok (VBool (negb b)), st') ∧
        storage st' = storage st ∧
        isRecipeFavorited (prop recipe "id") st' = (Ok b, st')).
Proof.
  intros Hw. split_and!.
  - intros recipe. by apply addToFavorites_refused.
  - intros recipeId. by apply removeFromFavorites_refused.
  - intros recipe Hrecipe.
    destruct (toggleFavorite_run st recipe Hrecipe) as (b & Hb & Hrun).
    exists b. eexists. split_and!; [done|exact Hrun| |].
    + destruct b; [by apply removeFromFavorites_not_working
                  |by apply addToFavorites_not_working].
    + match goal with |- isRecipeFavorited _ ?s = _ => set (st' := s) end.
      assert (Hst : storage st' = storage st).
      { unfold st'. destruct b; [by apply removeFromFavorites_not_working
                                |by apply addToFavorites_not_working]. }
      pose proof (isRecipeFavorited_storage st st' (prop recipe "id") Hst) as Hsame.
      destruct (isRecipeFavorited_run st' (prop recipe "id")) as [b' Hb'].
      rewrite Hb', Hb in Hsame. simpl in Hsame. by simplify_eq.
Qed.

(** On a full storage holding the favourite "r1": adding "r2" is refused,
    and toggling "r2" answers "added" although "r2" is not a favourite
    afterwards. *)
Lemma favorites_on_unwritable_storage_witness :
  (∃ st', addToFavorites (H := offline_platform) rendang_entry full_state = (Ok false, st') ∧
          storage st' = storage full_state) ∧
  (∃ st', toggleFavorite (H := offline_platform) rendang_entry full_state
            = (Ok (VBool true), st') ∧
          isRecipeFavorited (VStr "r2") st' = (Ok false, st')).
Proof.
  assert (Hfull : ¬ working full_state) by (intros [_ Hf]; discriminate Hf).
  destruct (favorites_on_unwritable_storage (H := offline_platform) full_state Hfull)
    as (Hadd & _ & Htoggle).
  split; [apply Hadd|].
  destruct (Htoggle rendang_entry eq_refl) as (b & st' & Hb & Hrun & _ & Hafter).
  assert (b = false) as -> by (vm_compute in Hb; congruence).
  exists st'. split; [exact Hrun|exact Hafter].
Defined.


(** *** Toggling a recipe without identifier *)

(** A recipe whose identifier is absent or falsy cannot be toggled off:
    with a working storage whose favourites are an array of entries other
    than [null] ([favorites_are]), none of which has an identifier strictly
    equal to the recipe's own, and a clock that does not read 0, a toggle
    adds an entry and answers [true], and so does the next toggle; the
    list grows by two entries. *)
Theorem toggleFavorite_without_identifier `{Platform}
    (st : state) (recipe : value) (l : list value) :
  working st → favorites_are st l →
  nullish recipe = false → truthy (prop recipe "id") = false →
  Forall (λ fav, same_id (prop recipe "id") fav = false) l →
  clock (ticks st) ≠ 0 →
  ∃ st1 st2 e1 e2,
    toggleFavorite recipe st = (Ok (VBool true), st1) ∧
    isRecipeFavorited (prop recipe "id") st1 = (Ok false, st1) ∧
    toggleFavorite recipe st1 = (Ok (VBool true), st2) ∧
    favorites_are st2 (l ++ [e1; e2]).
Proof.
  intros Hw Hfav Hrecipe Hfalsy Hnone Hclock.
  destruct (addToFavorites_appends st recipe l Hw Hfav Hrecipe Hnone)
    as (st1 & Hadd1 & Hw1 & _ & Hfav1).
  rewrite Hfalsy in Hfav1.
  set (e1 := stored (favoriteRecipe recipe (VNum (clock (ticks st)))
                       (clock (S (ticks st))))) in *.
  assert (Hnone1 : Forall (λ fav, same_id (prop recipe "id") fav = false) (l ++ [e1])).
  { apply Forall_app_2; [done|]. constructor; [|constructor].
    apply falsy_id_no_match; [done|].
    unfold e1. rewrite stored_favoriteRecipe_id by done. simpl.
    by apply negb_true_iff, Z.eqb_neq. }
  destruct (addToFavorites_appends st1 recipe _ Hw1 Hfav1 Hrecipe Hnone1)
    as (st2 & Hadd2 & _ & _ & Hfav2).
  rewrite Hfalsy, <- (assoc_L (++)) in Hfav2.
  assert (Hno : ∀ l0, Forall (λ fav, same_id (prop recipe "id") fav = false) l0 →
                      existsb (same_id (prop recipe "id")) l0 = false).
  { clear. induction 1 as [|x l0 Hx _ IH]; simpl; [done|]. by rewrite Hx, IH. }
  destruct (toggleFavorite_run st recipe Hrecipe) as (b & Hb & Hrun1).
  rewrite (isRecipeFavorited_ok _ _ _ Hfav), (Hno _ Hnone) in Hb. injection Hb as <-.
  rewrite Hadd1 in Hrun1.
  destruct (toggleFavorite_run st1 recipe Hrecipe) as (b1 & Hb1 & Hrun2).
  rewrite (isRecipeFavorited_ok _ _ _ Hfav1), (Hno _ Hnone1) in Hb1. injection Hb1 as <-.
  rewrite Hadd2 in Hrun2.
  eexists st1, st2, e1, _. split_and!; [exact Hrun1| |exact Hrun2|exact Hfav2].
  by rewrite (isRecipeFavorited_ok _ _ _ Hfav1), (Hno _ Hnone1).
Qed.

(** From an empty store, two toggles of the recipe without identifier. *)
Lemma toggleFavorite_without_identifier_witness :
  ∃ st1 st2 e1 e2,
    toggleFavorite (H := offline_platform) recipe_unnamed empty_state
      = (Ok (VBool true), st1) ∧
    isRecipeFavorited VUndef st1 = (Ok false, st1) ∧
    toggleFavorite (H := offline_platform) recipe_unnamed st1 = (Ok (VBool true), st2) ∧
    favorites_are st2 [e1; e2].
Proof.
  apply (toggleFavorite_without_identifier (H := offline_platform)
           empty_state recipe_unnamed []).
  - split; reflexivity.
  - exact empty_favorites.
  - reflexivity.
  - reflexivity.
  - constructor.
  - simpl. lia.
Defined.

(** *** Favourites that hold [null] *)

(** The premise on the stored entries cannot be dropped. With the
    favourites [[null]] the duplicate check throws on the [null] entry:
    [addToFavorites] of the recipe whose identifier is 0 returns [false],
    [toggleFavorite] answers [true], and the storage stays as it is. *)
Lemma addToFavorites_null_entry :
  let added := addToFavorites (H := offline_platform) recipe_zero null_entries_state in
  let toggled := toggleFavorite (H := offline_platform) recipe_zero null_entries_state in
  added.1 = Ok false ∧ storage added.2 = storage null_entries_state ∧
  toggled.1 = Ok (VBool true) ∧ storage toggled.2 = storage null_entries_state.
Proof. vm_compute. split_and!; reflexivity. Qed.

(** * Further properties of the reviews *)






(** *** The fallback reads never fail *)



(** *** Creating a review never fails *)

Lemma saveReviewToStorage_request `{Platform} st recipeId reviewData :
  sent (saveReviewToStorage recipeId reviewData st).2 = sent st.
Proof.
  unfold saveReviewToStorage, try_catch.
  destruct (blocked (storage st)) eqn:Hb.
  { unfold bind, getItem. by rewrite Hb. }
  mstep. destruct (item_or_empty_array _) as [v|s]; [|done].
  repeat mstep. destruct (nullish reviewData) eqn:Hdata.
  { by rewrite bind_get_nullish. }
  repeat mstep. destruct v as [| | | | | | |l|]; try done.
  mstep. unfold bind, setItem. simpl. rewrite Hb.
  by destruct (full (storage st)).
Qed.

(** [createReview] returns in every state and for every answer of the
    server, after exactly one request. It returns the offline envelope
    [{success: true, data: reviewData, offline: true}] when the request
    fails and also when the request is fulfilled with a body that is
    [null] or [undefined] (reading [response.success] throws into the same
    [catch]); every other body is returned as it is. *)
Theorem createReview_never_throws `{Platform} (st : state) (recipeId reviewData : value) :
  ∃ v st',
    createReview recipeId reviewData st = (Ok v, st') ∧
    sent st' = S (sent st) ∧
    match transport (sent st)
            {| req_method := POST; req_url := reviews_url recipeId;
               req_body := reviewData |} with
    | Fulfilled response =>
        v = if nullish (prop response "data") then offline_envelope reviewData
            else prop response "data"
    | Failed _ => v = offline_envelope reviewData
    end.
Proof.
  destruct (transport _ _) as [response|err] eqn:Hanswer.
  - destruct (nullish (prop response "data")) eqn:Hbody.
    + unfold createReview, try_catch.
      rewrite (bind_ok _ _ _ _ _ (apiClient_fulfilled _ _ _ _ _ Hanswer)).
      rewrite bind_get_nullish by done.
      destruct (saveReviewToStorage_storage (requested st) recipeId reviewData)
        as (v & st' & Hsave).
      rewrite (bind_ok _ _ _ _ _ Hsave). eexists _, _. split_and!; [done| |done].
      pose proof (saveReviewToStorage_request (requested st) recipeId reviewData) as Hsent.
      by rewrite Hsave in Hsent.
    + rewrite (createReview_fulfilled _ _ _ _ Hanswer Hbody).
      eexists _, _. split_and!; [done| |done]. simpl.
      destruct (_ || _); [|done]. by rewrite saveReviewToStorage_request.
  - rewrite (createReview_failed _ _ _ _ Hanswer).
    eexists _, _. split_and!; [done| |done]. simpl.
    by rewrite saveReviewToStorage_request.
Qed.

(** *** One record for both review stores *)




(** *** Reviews on a storage that cannot be written *)

Lemma saveReview_refused `{Platform} st reviewData :
  ¬ working st →
  ∃ st', saveReview reviewData st = (Ok VNull, st') ∧ storage st' = storage st.
Proof.
  intros Hw. unfold saveReview, try_catch.
  destruct (blocked (storage st)) eqn:Hb.
  { unfold bind, getItem. rewrite Hb. by eexists. }
  mstep. destruct (item_or_empty_array _) as [v|s]; [|by eexists].
  repeat mstep. destruct v as [| | | | | | |l0|]; try by eexists.
  mstep.
  match goal with
  | |- context [bind (setItem ?key ?t) ?k ?s] =>
      destruct (setItem_not_working key t s) as [e He]; [done|];
      rewrite (bind_thrown _ _ _ _ _ He)
  end. by eexists.
Qed.

Lemma saveReviewToStorage_refused `{Platform} st recipeId reviewData :
  ¬ working st →
  ∃ st', saveReviewToStorage recipeId reviewData st = (Ok VNull, st') ∧
         storage st' = storage st.
Proof.
  intros Hw. unfold saveReviewToStorage, try_catch.
  destruct (blocked (storage st)) eqn:Hb.
  { unfold bind, getItem. rewrite Hb. by eexists. }
  mstep. destruct (item_or_empty_array _) as [v|s]; [|by eexists].
  repeat mstep. destruct (nullish reviewData) eqn:Hdata.
  { rewrite bind_get_nullish by done. by eexists. }
  repeat mstep. destruct v as [| | | | | | |l0|]; try by eexists.
  mstep.
  match goal with
  | |- context [bind (setItem ?key ?t) ?k ?s] =>
      destruct (setItem_not_working key t s) as [e He]; [done|];
      rewrite (bind_thrown _ _ _ _ _ He)
  end. by eexists.
Qed.

(** When the storage cannot be written, [saveReview] and
    [saveReviewToStorage] return [null] and store nothing. [createReview]
    drops that result: after a failed request it still returns the
    envelope [{success: true, offline: true}], although the review is kept
    nowhere. *)
Theorem reviews_on_unwritable_storage `{Platform}
    (st : state) (recipeId reviewData : value) :
  ¬ working st →
  (∃ st', saveReview reviewData st = (Ok VNull, st') ∧ storage st' = storage st) ∧
  (∃ st', saveReviewToStorage recipeId reviewData st = (Ok VNull, st') ∧
          storage st' = storage st) ∧
  (∀ err,
      transport (sent st)
        {| req_method := POST; req_url := reviews_url recipeId;
           req_body := reviewData |} = Failed err →
      ∃ st', createReview recipeId reviewData st = (Ok (offline_envelope reviewData), st') ∧
             storage st' = storage st).
Proof.
  intros Hw. split_and!.
  - by apply saveReview_refused.
  - by apply saveReviewToStorage_refused.
  - intros err Hpost. rewrite (createReview_failed _ _ _ _ Hpost).
    destruct (saveReviewToStorage_refused (requested st) recipeId reviewData Hw)
      as (st' & Hsave & Hst').
    exists st'. by rewrite Hsave.
Qed.

(** Offline and with a full storage, [createReview] reports success and
    the storage is what it was. *)
Lemma reviews_on_unwritable_storage_witness :
  ∃ st', createReview (H := offline_platform) (VStr "r1") sample_review full_state
           = (Ok (offline_envelope sample_review), st') ∧
         storage st' = storage full_state.
Proof.
  assert (Hfull : ¬ working full_state) by (intros [_ Hf]; discriminate Hf).
  destruct (reviews_on_unwritable_storage (H := offline_platform)
              full_state (VStr "r1") sample_review Hfull) as (_ & _ & Hcreate).
  apply (Hcreate (VObj {[ "message" := VStr "Network Error" ]})). reflexivity.
Defined.

(** *** Reviews that hold [null] *)

(** The premise on the stored reviews cannot be dropped. With the reviews
    [[null]], [saveReview] and [createReview] append their review, but the
    filters of [loadUserReviews] and of the service's fallback throw on
    the [null] entry and the answer is the empty list. *)
Lemma saveReview_null_entry :
  let saved := saveReview (H := offline_platform) sample_review null_entries_state in
  let created :=
    createReview (H := offline_platform) (VStr "r1") sample_review null_entries_state in
  (∃ review, items (storage saved.2) !! REVIEWS_KEY = Some (Json (VArr [VNull; review]))) ∧
  (loadUserReviews (VStr "user-1") saved.2).1 = Ok (VArr []) ∧
  (∃ review, items (storage created.2) !! REVIEWS_KEY = Some (Json (VArr [VNull; review]))) ∧
  (getReviewsFromStorage (VStr "r1") created.2).1 = Ok (VArr []).
Proof. vm_compute. split_and!; try reflexivity; eexists; reflexivity. Qed.

(** * Further properties of the recipe service *)

(** ** Trimming *)

Lemma rtrim_idemp s : rtrim (rtrim s) = rtrim s.
Proof.
  induction s as [|c s IH]; [done|]. simpl.
  destruct (rtrim s) as [|c' r] eqn:E.
  - destruct (is_ws c) eqn:Hc; [done|]. simpl. by rewrite Hc.
  - simpl. simpl in IH. by rewrite IH.
Qed.

Lemma skip_ws_head s :
  skip_ws s = "" ∨ ∃ c r, skip_ws s = String c r ∧ is_ws c = false.
Proof.
  induction s as [|c s IH]; simpl; [by left|].
  destruct (is_ws c) eqn:Hc; [done|]. right. by exists c, s.
Qed.

Lemma trim_idemp s : trim (trim s) = trim s.
Proof.
  unfold trim. destruct (skip_ws_head s) as [->|(c & r & -> & Hc)]; [done|].
  assert (Hhead : ∃ r', rtrim (String c r) = String c r').
  { simpl. destruct (rtrim r); [rewrite Hc|]; by eexists. }
  destruct Hhead as [r' Hr']. rewrite Hr'. simpl skip_ws. rewrite Hc.
  by rewrite <- Hr', rtrim_idemp.
Qed.

Lemma truthy_text s : truthy (VStr s) = true ↔ s ≠ "".
Proof.
  simpl. rewrite negb_true_iff. split.
  - intros E ->. done.
  - intros Hs. destruct (String.eqb s "") eqn:E; [|done].
    by apply String.eqb_eq in E.
Qed.

(** ** Preparing the data of a form *)

Lemma opt_trim_ok v st :
  text_or_absent v = true →
  ∃ s, opt_trim v st = (Ok (match v with VStr _ => VStr s | _ => VUndef end), st) ∧
       or_else (match v with VStr _ => VStr s | _ => VUndef end) (VStr "") = VStr s ∧
       s = match v with VStr t => trim t | _ => "" end.
Proof.
  destruct v as [| | | | | |t| |]; try done; intros _.
  - by exists "".
  - by exists "".
  - exists (trim t). split_and!; [done| |done].
    unfold or_else. destruct (truthy (VStr (trim t))) eqn:E; [done|].
    simpl in E. apply negb_false_iff, String.eqb_eq in E. by rewrite E.
Qed.

Lemma trim_text_idemp v :
  trim (match v with VStr t => trim t | _ => "" end)
  = match v with VStr t => trim t | _ => "" end.
Proof. destruct v; try done. apply trim_idemp. Qed.

Lemma prepareIngredient_ok x i st :
  ingredient_ok x →
  ∃ a b, prepareIngredient x i st
           = (Ok (object ∅ [("name", VStr a); ("quantity", VStr b)]), st) ∧
         trim a = a ∧ trim b = b.
Proof.
  intros (Hx & Hname & Hquantity). unfold prepareIngredient.
  destruct (opt_trim_ok (prop x "name") st Hname) as (a & Ha & Hora & ->).
  destruct (opt_trim_ok (prop x "quantity") st Hquantity) as (b & Hb & Horb & ->).
  eexists _, _. split_and!; [|apply trim_text_idemp|apply trim_text_idemp].
  mstep. rewrite (bind_ok _ _ _ _ _ Ha). cbv beta.
  rewrite (bind_ok _ _ _ _ _ Hb). cbv beta. by rewrite Hora, Horb.
Qed.

Lemma mapiM_prepareIngredient l i st :
  Forall ingredient_ok l →
  ∃ r, mapiM prepareIngredient i l st = (Ok r, st) ∧
       length r = length l ∧
       Forall (λ x, ∃ a b, x = object ∅ [("name", VStr a); ("quantity", VStr b)] ∧
                           trim a = a ∧ trim b = b) r.
Proof.
  intros Hl. revert i. induction Hl as [|x l Hx _ IH]; intros i.
  - by exists [].
  - destruct (prepareIngredient_ok x i st Hx) as (a & b & Hrun & Ha & Hb).
    destruct (IH (S i)) as (r & Hr & Hlen & Hall).
    eexists (_ :: r). split_and!.
    + simpl. rewrite (bind_ok _ _ _ _ _ Hrun). cbv beta.
      by rewrite (bind_ok _ _ _ _ _ Hr).
    + simpl. by rewrite Hlen.
    + constructor; [by exists a, b|done].
Qed.

Lemma prepared_ingredients_filter r :
  Forall (λ x, ∃ a b, x = object ∅ [("name", VStr a); ("quantity", VStr b)] ∧
                      trim a = a ∧ trim b = b) r →
  Forall prepared_ingredient
    (List.filter (λ ingredient, truthy (prop ingredient "name")
                                && truthy (prop ingredient "quantity")) r).
Proof.
  induction 1 as [|x r (a & b & -> & Ha & Hb) _ IH]; simpl; [constructor|].
  match goal with |- context [if ?c then _ else _] => destruct c eqn:E end; [|done].
  constructor; [|done]. apply andb_prop in E as [Ea Eb].
  exists a, b. split_and!; try done.
  - by apply truthy_text in Ea.
  - by apply truthy_text in Eb.
Qed.

Lemma prepareStep_ok x i st :
  step_ok x = true →
  ∃ v, prepareStep x i st = (Ok v, st) ∧
       (v = VNull ∨ ∃ t, v = VStr t ∧ trim t = t).
Proof.
  unfold step_ok, prepareStep. intros Hx.
  destruct x as [| | | | | |s| |o]; try (exists VNull; split; [done|by left]).
  - destruct b; by (exists VNull; split; [done|by left]).
  - destruct (truthy (VNum n)); by (exists VNull; split; [done|by left]).
  - exists (VStr (trim s)). split; [done|]. right. eexists. split; [done|apply trim_idemp].
  - destruct (prop (VObj o) "instruction") as [| | | | | |t| |] eqn:E;
      try (exists VNull; split; [done|by left]); try done.
    + simpl in Hx. apply negb_true_iff in Hx. simpl. rewrite Hx.
      exists VNull. split; [done|by left].
    + simpl in Hx. apply negb_true_iff in Hx. simpl. rewrite Hx.
      exists VNull. split; [done|by left].
    + change (truthy (VObj o)) with true. cbv beta match.
      destruct (truthy (VStr t)); simpl.
      * exists (VStr (trim t)). split; [done|]. right.
        eexists. split; [done|apply trim_idemp].
      * exists VNull. split; [done|by left].
Qed.

Lemma mapiM_prepareStep l i st :
  Forall (λ step, step_ok step = true) l →
  ∃ r, mapiM prepareStep i l st = (Ok r, st) ∧
       Forall (λ v, v = VNull ∨ ∃ t, v = VStr t ∧ trim t = t) r.
Proof.
  intros Hl. revert i. induction Hl as [|x l Hx _ IH]; intros i.
  - by exists [].
  - destruct (prepareStep_ok x i st Hx) as (v & Hrun & Hv).
    destruct (IH (S i)) as (r & Hr & Hall).
    exists (v :: r). split; [|by constructor].
    simpl. rewrite (bind_ok _ _ _ _ _ Hrun). cbv beta.
    by rewrite (bind_ok _ _ _ _ _ Hr).
Qed.

Lemma prepared_steps_filter r :
  Forall (λ v, v = VNull ∨ ∃ t, v = VStr t ∧ trim t = t) r →
  Forall prepared_step (List.filter (λ step, truthy step && length_positive step) r).
Proof.
  induction 1 as [|x r [->|(t & -> & Ht)] _ IH]; simpl; [constructor|done|].
  destruct (negb (String.eqb t "")) eqn:E; simpl; [|done].
  constructor; [|done]. exists t. split; [done|]. split; [done|].
  by apply (truthy_text t).
Qed.

Lemma prepared_ingredients_run recipeData st :
  (∀ l, field recipeData "ingredients" = VArr l → Forall ingredient_ok l) →
  ∃ ings,
    (match field recipeData "ingredients" with
     | VArr l =>
         (r <- mapiM prepareIngredient 0 l ;;
          ret (VArr (List.filter
                       (λ ingredient, truthy (prop ingredient "name")
                                      && truthy (prop ingredient "quantity")) r)))
     | _ => ret (VArr [])
     end) st = (Ok (VArr ings), st) ∧ Forall prepared_ingredient ings.
Proof.
  intros Hings.
  destruct (field recipeData "ingredients") as [| | | | | | |l|] eqn:E;
    try (exists []; split; [done|constructor]).
  destruct (mapiM_prepareIngredient l 0 st (Hings l eq_refl)) as (r & Hr & _ & Hall).
  eexists. split; [by rewrite (bind_ok _ _ _ _ _ Hr)|].
  by apply prepared_ingredients_filter.
Qed.

Lemma prepared_steps_run recipeData st :
  (∀ l, field recipeData "steps" = VArr l → Forall (λ step, step_ok step = true) l) →
  ∃ steps,
    (match field recipeData "steps" with
     | VArr l =>
         (r <- mapiM prepareStep 0 l ;;
          ret (VArr (List.filter (λ step, truthy step && length_positive step) r)))
     | _ => ret (VArr [])
     end) st = (Ok (VArr steps), st) ∧ Forall prepared_step steps.
Proof.
  intros Hsteps.
  destruct (field recipeData "steps") as [| | | | | | |l|] eqn:E;
    try (exists []; split; [done|constructor]).
  destruct (mapiM_prepareStep l 0 st (Hsteps l eq_refl)) as (r & Hr & Hall).
  eexists. split; [by rewrite (bind_ok _ _ _ _ _ Hr)|].
  by apply prepared_steps_filter.
Qed.

(** A name that is neither a string nor absent has no [trim]: the
    preparation throws. *)
Lemma prepareRecipeData_untyped_name `{Platform} recipeData currentRecipe st :
  (∀ l, field recipeData "ingredients" = VArr l → Forall ingredient_ok l) →
  (∀ l, field recipeData "steps" = VArr l → Forall (λ step, step_ok step = true) l) →
  text_or_absent (field recipeData "name") = false →
  prepareRecipeData recipeData currentRecipe st = (Throw TypeError, st).
Proof.
  intros Hings Hsteps Hname.
  destruct (prepared_ingredients_run recipeData st Hings) as (ings & Hirun & _).
  destruct (prepared_steps_run recipeData st Hsteps) as (steps & Hsrun & _).
  unfold prepareRecipeData. cbv zeta.
  change (default VUndef (spread recipeData !! "ingredients"))
    with (field recipeData "ingredients").
  rewrite (bind_ok _ _ _ _ _ Hirun). cbv beta.
  rewrite (lookup_insert_ne _ "ingredients" "steps") by done.
  change (default VUndef (spread recipeData !! "steps"))
    with (field recipeData "steps").
  rewrite (bind_ok _ _ _ _ _ Hsrun). cbv beta.
  rewrite !(lookup_insert_ne _ _ "name") by done.
  match goal with
  | |- context [(if ?c then ?a else ?b) !! "name"] =>
      replace ((if c then a else b) !! "name") with (spread recipeData !! "name")
        by (destruct c; by rewrite !lookup_insert_ne)
  end.
  change (default VUndef (spread recipeData !! "name"))
    with (field recipeData "name").
  apply bind_thrown. by destruct (field recipeData "name").
Qed.








(** ** The calls of the recipe service *)

Lemma keeps_storage_readonly {A} (c : M A) : readonly c → keeps_storage c.
Proof. intros Hc st. by rewrite Hc. Qed.

Lemma keeps_storage_bind {A B} (c : M A) (k : A → M B) :
  keeps_storage c → (∀ a, keeps_storage (k a)) → keeps_storage (bind c k).
Proof.
  intros Hc Hk st. unfold bind. specialize (Hc st).
  destruct (c st) as [[a|e] st']; simpl in *; [by rewrite Hk|done].
Qed.

Lemma keeps_storage_try_catch {A} (c : M A) (h : error → M A) :
  keeps_storage c → (∀ e, keeps_storage (h e)) → keeps_storage (try_catch c h).
Proof.
  intros Hc Hh st. unfold try_catch. specialize (Hc st).
  destruct (c st) as [[a|e] st']; simpl in *; [done|by rewrite Hh].
Qed.

Lemma keeps_storage_ret {A} (a : A) : keeps_storage (ret a).
Proof. done. Qed.

Lemma keeps_storage_throw {A} e : keeps_storage (throw (A := A) e).
Proof. done. Qed.

Lemma keeps_storage_get v k : keeps_storage (get v k).
Proof. apply keeps_storage_readonly, readonly_get. Qed.

Lemma keeps_storage_Date_now `{Platform} : keeps_storage Date_now.
Proof. done. Qed.

Lemma keeps_storage_Math_random `{Platform} : keeps_storage Math_random.
Proof. done. Qed.

Lemma keeps_storage_apiClient `{Platform} m url body :
  keeps_storage (apiClient m url body).
Proof. intros st. apply apiClient_storage. Qed.

Lemma keeps_storage_opt_trim v : keeps_storage (opt_trim v).
Proof. by destruct v. Qed.

Lemma keeps_storage_call_trim v : keeps_storage (call_trim v).
Proof. by destruct v. Qed.

Lemma keeps_storage_mapiM (f : value → nat → M value) l i :
  (∀ x j, keeps_storage (f x j)) → keeps_storage (mapiM f i l).
Proof.
  intros Hf. revert i. induction l as [|x l IH]; intros i; simpl; [done|].
  apply keeps_storage_bind; [done|]. intros y.
  apply keeps_storage_bind; [done|]. done.
Qed.

Create HintDb keeps.
#[local] Hint Resolve keeps_storage_ret keeps_storage_throw keeps_storage_get
  keeps_storage_Date_now keeps_storage_Math_random keeps_storage_apiClient
  keeps_storage_opt_trim keeps_storage_call_trim : keeps.

Ltac keeps_tac :=
  repeat first
    [ solve [eauto with keeps]
    | apply keeps_storage_try_catch | apply keeps_storage_bind
    | apply keeps_storage_mapiM
    | match goal with |- ∀ _, _ => intro end
    | match goal with |- keeps_storage (if ?b then _ else _) => destruct b end
    | match goal with |- keeps_storage (match ?x with _ => _ end) => destruct x end ].

Lemma keeps_storage_normalizeRecipeData `{Platform} recipe :
  keeps_storage (normalizeRecipeData recipe).
Proof. unfold normalizeRecipeData, normalizeIngredient, normalizeStep, fresh_id. keeps_tac. Qed.

Lemma keeps_storage_prepareRecipeData `{Platform} recipeData currentRecipe :
  keeps_storage (prepareRecipeData recipeData currentRecipe).
Proof. unfold prepareRecipeData, prepareIngredient, prepareStep. keeps_tac. Qed.

#[local] Hint Resolve keeps_storage_normalizeRecipeData
  keeps_storage_prepareRecipeData : keeps.

Lemma keeps_storage_normalizeResponse `{Platform} response :
  keeps_storage (normalizeResponse response).
Proof. unfold normalizeResponse. keeps_tac. Qed.

#[local] Hint Resolve keeps_storage_normalizeResponse : keeps.

Lemma keeps_storage_getRecipeById `{Platform} id : keeps_storage (getRecipeById id).
Proof. unfold getRecipeById. keeps_tac. Qed.

#[local] Hint Resolve keeps_storage_getRecipeById : keeps.

(** The recipe service is remote only: none of its calls writes to the
    local storage, whatever the server answers, and [deleteRecipe] is the
    request itself, so that a failed request reaches the caller as the
    interceptor's rejection. *)
Theorem recipe_service_remote_only `{Platform}
    (st : state) (id recipeData : value) :
  storage (getRecipeById id st).2 = storage st ∧
  storage (createRecipe recipeData st).2 = storage st ∧
  storage (updateRecipe id recipeData st).2 = storage st ∧
  storage (patchRecipe id recipeData st).2 = storage st ∧
  storage (deleteRecipe id st).2 = storage st ∧
  deleteRecipe id st = apiClient DELETE (recipe_url id) VUndef st.
Proof.
  split_and!.
  - apply keeps_storage_getRecipeById.
  - revert st. change (keeps_storage (createRecipe recipeData)).
    unfold createRecipe. keeps_tac.
  - revert st. change (keeps_storage (updateRecipe id recipeData)).
    unfold updateRecipe. keeps_tac.
  - revert st. change (keeps_storage (patchRecipe id recipeData)).
    unfold patchRecipe. keeps_tac.
  - revert st. change (keeps_storage (deleteRecipe id)).
    unfold deleteRecipe. keeps_tac.
  - unfold deleteRecipe, try_catch, bind.
    by destruct (apiClient _ _ _ st) as [[r|e] st'].
Qed.

(** *** What the calls send and return *)

Lemma try_rethrow {A} (c : M A) st : try_catch c (λ error, throw error) st = c st.
Proof. unfold try_catch, throw. by destruct (c st) as [[a|e] st']. Qed.










(** A form whose lists are well-formed but whose [name] is neither a string
    nor absent (a number, say) makes [createRecipe] throw a [TypeError]
    before anything is sent: the state, with its count of requests, is
    unchanged. *)
Theorem createRecipe_rejects_untyped_name `{Platform} (st : state) (recipeData : value) :
  (∀ l, field recipeData "ingredients" = VArr l → Forall ingredient_ok l) →
  (∀ l, field recipeData "steps" = VArr l → Forall (λ step, step_ok step = true) l) →
  text_or_absent (field recipeData "name") = false →
  createRecipe recipeData st = (Throw TypeError, st).
Proof.
  intros Hings Hsteps Hname. unfold createRecipe. rewrite try_rethrow.
  apply bind_thrown. by apply prepareRecipeData_untyped_name.
Qed.

Lemma createRecipe_rejects_untyped_name_witness :
  createRecipe (H := offline_platform) form_numeric_name empty_state
  = (Throw TypeError, empty_state).
Proof.
  apply (createRecipe_rejects_untyped_name (H := offline_platform)).
  - intros l Hl. discriminate Hl.
  - intros l Hl. discriminate Hl.
  - reflexivity.
Defined.

(** *** Updating a recipe *)








(** ** The elements of a normalized recipe *)

Lemma fresh_id_truthy `{Platform} prefix c st :
  ∃ v st', fresh_id (String c prefix) st = (Ok v, st') ∧ truthy v = true.
Proof.
  unfold fresh_id. repeat mstep. eexists _, _. split; [done|].
  by rewrite append_cons.
Qed.

Lemma normalizeStep_run `{Platform} x i st :
  nullish x = false →
  ∃ y st', normalizeStep x i st = (Ok y, st') ∧ normalized_step i x y.
Proof.
  intros Hx. unfold normalizeStep. mstep.
  destruct (truthy (prop x "id")) eqn:Hid.
  - repeat mstep. eexists _, _. split; [done|].
    unfold normalized_step. split_and!; [|intros _|..]; by read_field.
  - destruct (fresh_id_truthy "tep" "s" st) as (v & st' & Hv & Htruthy).
    rewrite (bind_ok _ _ _ _ _ Hv). eexists _, _. split; [done|].
    unfold normalized_step. split_and!; [|by rewrite Hid|..]; by read_field.
Qed.

Lemma normalizeIngredient_run `{Platform} x i st :
  nullish x = false →
  ∃ y st', normalizeIngredient x i st = (Ok y, st') ∧ normalized_ingredient i x y.
Proof.
  intros Hx. unfold normalizeIngredient. mstep.
  destruct (truthy (prop x "id")) eqn:Hid.
  - repeat mstep. eexists _, _. split; [done|].
    unfold normalized_ingredient. split_and!; [|intros _|..]; by read_field.
  - destruct (fresh_id_truthy "ngredient" "i" st) as (v & st' & Hv & Htruthy).
    rewrite (bind_ok _ _ _ _ _ Hv). eexists _, _. split; [done|].
    unfold normalized_ingredient. split_and!; [|by rewrite Hid|..]; by read_field.
Qed.

(** [map] keeps the length and the positions; the callback sees the
    position. *)
Lemma mapiM_elements (f : value → nat → M value) (P : nat → value → value → Prop) l :
  (∀ x i st, nullish x = false → ∃ y st', f x i st = (Ok y, st') ∧ P i x y) →
  Forall (λ x, nullish x = false) l →
  ∀ i st, ∃ r st',
    mapiM f i l st = (Ok r, st') ∧
    length r = length l ∧
    ∀ j x, l !! j = Some x → ∃ y, r !! j = Some y ∧ P (i + j)%nat x y.
Proof.
  intros Hf. induction 1 as [|x l Hx _ IH]; intros i st; simpl.
  - eexists _, _. split_and!; [done|done|]. intros j x Hj. by destruct j.
  - destruct (Hf x i st Hx) as (y & st1 & Hy & HP). rewrite (bind_ok _ _ _ _ _ Hy).
    destruct (IH (S i) st1) as (r & st2 & Hr & Hlen & Hall).
    rewrite (bind_ok _ _ _ _ _ Hr).
    eexists _, _. split_and!; [done|by simpl; rewrite Hlen|].
    intros [|j] z Hj; simpl in *.
    + simplify_eq. exists y. split; [done|]. by rewrite Nat.add_0_r.
    + destruct (Hall j z Hj) as (y' & Hy' & HP'). exists y'. split; [done|].
      by rewrite Nat.add_succ_r.
Qed.

Lemma normalized_list_elements (f : value → nat → M value)
    (P : nat → value → value → Prop) v st :
  (∀ x i st, nullish x = false → ∃ y st', f x i st = (Ok y, st') ∧ P i x y) →
  elements_present v →
  ∃ r st',
    match v with
    | VArr l => (r <- mapiM f 0 l ;; ret (VArr r))
    | _ => ret (VArr [])
    end st = (Ok (VArr r), st') ∧
    ∀ l, v = VArr l →
         length r = length l ∧
         ∀ j x, l !! j = Some x → ∃ y, r !! j = Some y ∧ P j x y.
Proof.
  intros Hf Hv. destruct v; try by eexists _, _.
  destruct (mapiM_elements f P l Hf Hv 0%nat st) as (r & st' & Hr & Hlen & Hall).
  rewrite (bind_ok _ _ _ _ _ Hr). eexists _, _. split; [done|].
  intros l' [= <-]. split; [done|]. exact Hall.
Qed.

(** For a recipe object whose [ingredients] and [steps], when they are
    arrays, hold no [null] or [undefined] element, [normalizeRecipeData]
    returns a record in which [steps] and [ingredients] have the length and
    the order of the recipe's: the step at position [j] keeps a truthy [id]
    (and gets a fresh, truthy one otherwise), keeps a truthy [step_number]
    and is numbered [j + 1] otherwise, and its [instruction] defaults to the
    empty text; and likewise for the ingredients. Every property that the
    normalizer does not set itself (such as [id]) is passed on as it
    is. *)
Theorem normalizeRecipeData_elements `{Platform} (st : state) (o : gmap string value) :
  elements_present (prop (VObj o) "ingredients") →
  elements_present (prop (VObj o) "steps") →
  ∃ out st' ingredients steps,
    normalizeRecipeData (VObj o) st = (Ok out, st') ∧
    prop out "ingredients" = VArr ingredients ∧
    prop out "steps" = VArr steps ∧
    (∀ l, prop (VObj o) "ingredients" = VArr l →
          length ingredients = length l ∧
          ∀ j x, l !! j = Some x →
                 ∃ y, ingredients !! j = Some y ∧ normalized_ingredient j x y) ∧
    (∀ l, prop (VObj o) "steps" = VArr l →
          length steps = length l ∧
          ∀ j x, l !! j = Some x →
                 ∃ y, steps !! j = Some y ∧ normalized_step j x y) ∧
    (∀ k, k ∉ normalized_keys → prop out k = prop (VObj o) k).
Proof.
  intros Hing Hsteps. unfold normalizeRecipeData.
  change (negb (truthy (VObj o))) with false. cbv match.
  destruct (normalized_list_elements normalizeIngredient normalized_ingredient _ st
              (λ x i st, normalizeIngredient_run x i st) Hing)
    as (r1 & st1 & H1 & Hall1).
  rewrite (bind_ok _ _ _ _ _ H1). cbv beta.
  destruct (normalized_list_elements normalizeStep normalized_step _ st1
              (λ x i st, normalizeStep_run x i st) Hsteps)
    as (r2 & st2 & H2 & Hall2).
  rewrite (bind_ok _ _ _ _ _ H2). cbv beta.
  exists (object (spread (VObj o))
    [("ingredients", VArr r1);
     ("steps", VArr r2);
     ("image_url", or_else (or_else (prop (VObj o) "image_url")
                              (prop (VObj o) "image")) (VStr ""));
     ("prep_time", or_else (parseInt (prop (VObj o) "prep_time")) (VNum 0));
     ("cook_time", or_else (parseInt (prop (VObj o) "cook_time")) (VNum 0));
     ("servings", or_else (parseInt (prop (VObj o) "servings")) (VNum 1));
     ("average_rating",
      or_else (parseFloat (prop (VObj o) "average_rating")) (VNum 0));
     ("review_count", or_else (parseInt (prop (VObj o) "review_count")) (VNum 0));
     ("name", or_else (prop (VObj o) "name") (VStr "Untitled Recipe"));
     ("description", or_else (prop (VObj o) "description") (VStr ""));
     ("category", or_else (prop (VObj o) "category") (VStr "makanan"));
     ("difficulty", or_else (prop (VObj o) "difficulty") (VStr "mudah"))]),
    st2, r1, r2.
  split_and!; [done|by read_field|by read_field|done|done|].
  intros k Hk. unfold normalized_keys in Hk. rewrite !not_elem_of_cons in Hk.
  destruct Hk as (? & ? & ? & ? & ? & ? & ? & ? & ? & ? & ? & ? & _).
  unfold object, prop. simpl. by rewrite !lookup_insert_ne.
Qed.

(** The recipe with two steps: the first is numbered 1, the second keeps
    its number 5 and its identifier, and [author] is passed on. *)
Lemma normalizeRecipeData_elements_witness :
  ∃ out st' s1 s2,
    normalizeRecipeData (H := offline_platform) recipe_two_steps empty_state
      = (Ok out, st') ∧
    prop out "steps" = VArr [s1; s2] ∧
    prop s1 "step_number" = VNum 1 ∧
    prop s2 "step_number" = VNum 5 ∧
    prop s2 "id" = VStr "s2" ∧
    prop out "author" = VStr "Ibu".
Proof.
  destruct (normalizeRecipeData_elements (H := offline_platform) empty_state
              {[ "id" := VStr "r9"; "author" := VStr "Ibu";
                 "steps" := VArr [VObj {[ "instruction" := VStr "Rebus" ]};
                                  VObj {[ "id" := VStr "s2"; "step_number" := VNum 5;
                                          "instruction" := VStr "Sajikan" ]}] ]})
    as (out & st' & ingredients & steps & Hrun & _ & Hsteps & _ & Hall & Hrest).
  - exact I.
  - repeat constructor.
  - destruct (Hall _ eq_refl) as [Hlen Hnth].
    destruct steps as [|s1 [|s2 [|s3 steps]]]; try discriminate Hlen.
    destruct (Hnth 0%nat _ eq_refl) as (y1 & [= <-] & _ & _ & Hn1 & _).
    destruct (Hnth 1%nat _ eq_refl) as (y2 & [= <-] & _ & Hid2 & Hn2 & _).
    exists out, st', s1, s2.
    split_and!; [exact Hrun|exact Hsteps|exact Hn1|exact Hn2|by apply Hid2|].
    rewrite Hrest; [reflexivity|].
    apply (bool_decide_unpack _). vm_compute. exact I.
Defined.
